(** * djtx-tester: the network-runner control plane

    A shallow embedding of the orchestration core ([server/network.go]) and
    of the client-side stream consumer ([client/client.go]), with the
    properties the specification states about them.

    Layout:
    - [GoStrings]: the two functions of Go's [strings] package the client
      uses, with their characterisations;
    - the Go values shared by both packages ([error], gRPC [Code]);
    - [Client]: [isClientCanceled] and the receive loop of [StreamStatus];
    - [Server]: [newNetwork], [start], [waitForHealthy], [stop]. *)

From Stdlib Require Import String Ascii DecimalString Decimal DecimalNat.
From stdpp Require Import gmap strings list fin_maps.

Local Open Scope string_scope.
Local Open Scope list_scope.

(* ===================================================================== *)
(** ** Go's [strings.HasPrefix] and [strings.HasSuffix]                   *)
(* ===================================================================== *)

Module GoStrings.

(** [len(s) >= len(prefix) && s[0:len(prefix)] == prefix] *)
Definition HasPrefix (s prefix : string) : bool :=
  (String.length prefix <=? String.length s)%nat
  && String.eqb (substring 0 (String.length prefix) s) prefix.

(** [len(s) >= len(suffix) && s[len(s)-len(suffix):] == suffix] *)
Definition HasSuffix (s suffix : string) : bool :=
  (String.length suffix <=? String.length s)%nat
  && String.eqb
       (substring (String.length s - String.length suffix)
                  (String.length suffix) s)
       suffix.

(** What the specification calls "starts with" and "ends with". *)
Definition starts_with (p s : string) : Prop := exists r, s = p +:+ r.
Definition ends_with (q s : string) : Prop := exists r, s = r +:+ q.

End GoStrings.

(* ===================================================================== *)
(** ** Go values shared by the two packages                               *)
(* ===================================================================== *)

(** [google.golang.org/grpc/codes.Code], in the order of the package. *)
Inductive Code : Type :=
  | OK | Canceled | Unknown | InvalidArgument | DeadlineExceeded | NotFound
  | AlreadyExists | PermissionDenied | ResourceExhausted | FailedPrecondition
  | Aborted | OutOfRange | Unimplemented | Internal | Unavailable | DataLoss
  | Unauthenticated.

(** The non-nil [error] values that the two files tell apart:
    - [io.EOF];
    - [context.Canceled] and [context.DeadlineExceeded];
    - [errAborted], the package variable of [server/network.go];
    - an error carrying a gRPC status ([status.Error(code, msg)]);
    - any other error, by its [Error()] text.
    A Go value of type [error] is an [option error], [None] being [nil]. *)
Inductive error : Type :=
  | io_EOF
  | context_Canceled
  | context_DeadlineExceeded
  | errAborted
  | StatusError (c : Code) (msg : string)
  | OtherError (text : string).

#[global] Instance Code_eq_dec : EqDecision Code.
Proof. solve_decision. Defined.

#[global] Instance error_eq_dec : EqDecision error.
Proof. solve_decision. Defined.

(** How a call ends: it returns a value, panics, or never returns because
    it is parked on a channel nobody serves. *)
Inductive outcome (A : Type) : Type :=
  | Ret (a : A)
  | Panic (why : string)
  | Blocked.
Arguments Ret {A} a.
Arguments Panic {A} why.
Arguments Blocked {A}.

(* ===================================================================== *)
(** ** [rpcpb/rpc.proto]: the two messages the code fills                 *)
(* ===================================================================== *)

Module rpcpb.

Record NodeInfo : Type := mkNodeInfo {
  Name : string;
  ExecPath : string;
  Uri : string;
  Id : string;
  LogDir : string;
  DbDir : string;
  WhitelistedSubnets : string;
  Config : string;
}.

Record ClusterInfo : Type := mkClusterInfo {
  NodeNames : list string;
  NodeInfos : gmap string NodeInfo;
  Pid : Z;
  RootDataDir : string;
  Healthy : bool;
}.

End rpcpb.

(* ===================================================================== *)
(** ** [client/client.go]                                                 *)
(* ===================================================================== *)

Module Client.

Import GoStrings.

(** [*status.Status]: a code and a message. *)
Record Status : Type := mkStatus { StatusCode : Code; StatusMessage : string }.

(** [error.Error()] as far as [status.FromError] needs it. *)
Definition Error_text (e : error) : string :=
  match e with
  | io_EOF => "EOF"
  | context_Canceled => "context canceled"
  | context_DeadlineExceeded => "context deadline exceeded"
  | errAborted => "aborted"
  | StatusError _ msg => msg
  | OtherError text => text
  end.

(** [status.FromError(err)]: a nil error is the OK status and [ok]; an error
    that carries a status yields it and [ok]; any other error is wrapped as
    [Unknown] with [ok = false]. *)
Definition FromError (err : option error) : Status * bool :=
  match err with
  | None => (mkStatus OK "", true)
  | Some (StatusError c msg) => (mkStatus c msg, true)
  | Some e => (mkStatus Unknown (Error_text e), false)
  end.

Definition isClientCanceled (ctxErr : option error) (err : option error) : bool :=
  match ctxErr with
  | Some _ => true
  | None =>
    let '(ev, ok) := FromError err in
    if negb ok then false
    else
      match StatusCode ev with
      | Canceled | DeadlineExceeded => true
      | Unavailable =>
        let msg := StatusMessage ev in
        if String.eqb msg "client disconnected" then true
        else if HasPrefix msg "stream error: " && HasSuffix msg "; CANCEL" then true
        else false
      | _ => false
      end
  end.

(** The RPC status an error carries, if it carries one. *)
Definition rpc_status (err : option error) : option (Code * string) :=
  match err with
  | Some (StatusError c msg) => Some (c, msg)
  | _ => None
  end.

(** The conditions of the specification, on the status code and message. *)
Definition cancel_status (c : Code) (msg : string) : Prop :=
  c = Canceled \/ c = DeadlineExceeded
  \/ (c = Unavailable /\ msg = "client disconnected")
  \/ (c = Unavailable /\ starts_with "stream error: " msg /\ ends_with "; CANCEL" msg).

(** *** The receive routine of [StreamStatus] *)

Inductive Level : Type := DebugLevel | InfoLevel | WarnLevel.

#[global] Instance Level_eq_dec : EqDecision Level.
Proof. solve_decision. Defined.

(** A [zap.L()] call: its level, its message and the [zap.Error] field. *)
Record LogEntry : Type := mkLog {
  level : Level;
  message : string;
  logged : option error;
}.

(** What happens to [ch], the channel handed to the consumer. Its element
    type is [*rpcpb.ClusterInfo]; [None] is the nil pointer that
    [GetClusterInfo] yields for a response without the field. *)
Inductive ChanOp : Type :=
  | Send (info : option rpcpb.ClusterInfo)
  | Close.

(** One turn of the [for] loop, as the environment presents it:
    whether [ctx.Done()] and [c.closed] are ready at the [select], what
    [stream.RecvMsg] then delivers, what [stream.Context().Err()] reads
    after a failed receive, and whether [ch] (capacity 1) has room for the
    send. *)
Record Turn : Type := mkTurn {
  ctxDone : bool;
  cliClosed : bool;
  recvInfo : option rpcpb.ClusterInfo;
  recvErr : option error;
  streamCtxErr : option error;
  chanRoom : bool;
}.

(** Why the routine returned. *)
Inductive Cause : Type :=
  | Stopped            (* [ctx.Done()] or [c.closed] at the head of the loop *)
  | CleanEOF
  | CallerCancelled
  | TransportFailure.

Record Routine : Type := mkRoutine {
  logs : list LogEntry;
  ch : list ChanOp;
  closeSends : nat;     (* calls of [stream.CloseSend()] *)
}.

Inductive Run : Type :=
  | Receiving (r : Routine)            (* turns exhausted, still in the loop *)
  | Parked (r : Routine)               (* suspended in [ch <- ...] *)
  | Ended (c : Cause) (r : Routine).

Definition log (l : Level) (m : string) (e : option error) (r : Routine) : Routine :=
  mkRoutine (logs r ++ [mkLog l m e]) (ch r) (closeSends r).

Definition chanOp (o : ChanOp) (r : Routine) : Routine :=
  mkRoutine (logs r) (ch r ++ [o]) (closeSends r).

(** [errors.Is(err, target)] on errors without a wrap chain. *)
Definition errors_Is (err target : error) : bool := bool_decide (err = target).

(** The deferred function: log the result of [stream.CloseSend()] at debug
    level, then [close(ch)]. *)
Definition deferred (r : Routine) : Routine :=
  let r := mkRoutine (logs r) (ch r) (S (closeSends r)) in
  chanOp Close (log DebugLevel "closing stream send" None r).

Definition start_routine : Routine :=
  log InfoLevel "start receive routine" None (mkRoutine [] [] 0).

Fixpoint receiveLoop (turns : list Turn) (r : Routine) : Run :=
  match turns with
  | [] => Receiving r
  | t :: turns' =>
    if ctxDone t || cliClosed t then Ended Stopped (deferred r)
    else
      match recvErr t with
      | None =>
        if chanRoom t then receiveLoop turns' (chanOp (Send (recvInfo t)) r)
        else Parked r
      | Some err =>
        if errors_Is err io_EOF then
          Ended CleanEOF
            (deferred (log DebugLevel
               "received EOF from client; returning to close the stream from server side"
               None r))
        else if isClientCanceled (streamCtxErr t) (Some err) then
          Ended CallerCancelled
            (deferred (log WarnLevel
               "failed to receive status request from gRPC stream due to client cancellation"
               (Some err) r))
        else
          Ended TransportFailure
            (deferred (log WarnLevel
               "failed to receive status request from gRPC stream"
               (Some err) r))
      end
  end.

(** The goroutine started by [StreamStatus]. *)
Definition receiveRoutine (turns : list Turn) : Run := receiveLoop turns start_routine.

(** A turn that delivers a message to the consumer. *)
Definition delivers (t : Turn) : Prop :=
  ctxDone t = false /\ cliClosed t = false /\ recvErr t = None /\ chanRoom t = true.

(** The terminal conditions of the specification (section 4.4), read off a
    turn: the cause it must end with, if it ends the stream. *)
Definition terminal (t : Turn) : option Cause :=
  if ctxDone t || cliClosed t then Some Stopped
  else match recvErr t with
       | None => None
       | Some err =>
         if bool_decide (err = io_EOF) then Some CleanEOF
         else if isClientCanceled (streamCtxErr t) (Some err) then Some CallerCancelled
         else Some TransportFailure
       end.

Definition warnings (r : Routine) : list LogEntry :=
  filter (fun e => level e = WarnLevel) (logs r).

(** *** Call options and the requests they fill *)

Record Op : Type := mkOp { whitelistedSubnets : string }.

(** An [OpOption] changes the [Op] it is given. *)
Definition OpOption : Type := Op -> Op.

(** [for _, opt := range opts { opt(op) }] *)
Definition applyOpts (op : Op) (opts : list OpOption) : Op :=
  fold_left (fun o opt => opt o) opts op.

Definition WithWhitelistedSubnets (subnets : string) : OpOption :=
  fun _ => mkOp subnets.

(** [rpcpb.StartRequest]: the two last fields are optional in the wire
    format, pointers in Go. *)
Record StartRequest : Type := mkStartRequest {
  reqExecPath : string;
  reqWhitelistedSubnets : option string;
  reqLogLevel : option string;
}.

Record RestartNodeRequest : Type := mkRestartNodeRequest {
  reqName : string;
  reqStartRequest : option StartRequest;
}.

(** The request [Start] sends. *)
Definition startRequest (execPath : string) (opts : list OpOption) : StartRequest :=
  let ret := applyOpts (mkOp "") opts in
  mkStartRequest execPath (Some (whitelistedSubnets ret)) None.

(** The request [RestartNode] sends. *)
Definition restartNodeRequest (name execPath : string) (opts : list OpOption)
    : RestartNodeRequest :=
  let ret := applyOpts (mkOp "") opts in
  mkRestartNodeRequest name
    (Some (mkStartRequest execPath (Some (whitelistedSubnets ret)) None)).

End Client.

(* ===================================================================== *)
(** ** [server/network.go]                                                *)
(* ===================================================================== *)

Module Server.

(** *** Channels and [sync.Once] *)

(** A channel: its capacity, the buffered values and whether it is closed. *)
Record chan (A : Type) : Type := mkChan { cap : nat; buf : list A; closed : bool }.
Arguments mkChan {A} cap buf closed.
Arguments cap {A} c.
Arguments buf {A} c.
Arguments closed {A} c.

Definition make (A : Type) (n : nat) : chan A := mkChan n [] false.

(** [close(c)] panics on a closed channel. *)
Definition close {A} (c : chan A) : outcome (chan A) :=
  if closed c then Panic "close of closed channel"
  else Ret (mkChan (cap c) (buf c) true).

(** [c <- a] with no receiver waiting: it panics on a closed channel, is
    buffered while there is room, and parks the sender otherwise. *)
Definition send {A} (c : chan A) (a : A) : outcome (chan A) :=
  if closed c then Panic "send on closed channel"
  else if (length (buf c) <? cap c)%nat then Ret (mkChan (cap c) (buf c ++ [a]) false)
  else Blocked.

(** [sync.Once]: the [done] flag and the mutex [m] that [doSlow] holds
    while the function runs. *)
Record Once : Type := mkOnce { done : bool; m : bool }.

Definition newOnce : Once := mkOnce false false.

(** *** The collaborators *)

(** [node.Node], by what [waitForHealthy] asks of it. [GetNodeID] is the
    [String()] rendering of the identifier, which [PrefixedString]
    prepends the prefix to. *)
Definition APIClient : Type := nat.

Record Node : Type := mkNode {
  GetURL : string;
  GetAPIPort : nat;
  GetNodeID : string;
  GetAPIClient : APIClient;
}.

(** [network.Network], by its behaviour: when (nanoseconds after the call)
    the channel returned by [Healthy(ctx)] delivers and what it delivers,
    [None] when it never does; what [GetAllNodes] returns, the map being
    listed in the order [range] visits it; the error of [Stop]. *)
Record Network : Type := mkNetwork {
  Healthy : option (N * option error);
  GetAllNodes : list (string * Node) * option error;
  Stop : option error;
}.

(** The [writer] of this file, without its [io.Writer]. *)
Record writer : Type := mkWriter { c : string; name : string }.

(** [local.NodeConfig] and [node.Config], by the fields [newNetwork] sets. *)
Record local_NodeConfig : Type := mkLocalNodeConfig {
  BinaryPath : string;
  Stdout : writer;
  Stderr : writer;
}.

Record node_Config : Type := mkNodeConfig {
  cfgName : string;
  ConfigFile : string;
  ImplSpecificConfig : option local_NodeConfig;
}.

Record network_Config : Type := mkNetworkConfig { NodeConfigs : list node_Config }.

(** What the file takes from its dependencies: the two fallible logging
    calls, [local.NewDefaultConfig], [filepath.Join],
    [constants.NodeIDPrefix] and [local.NewNetwork]. *)
Record Deps : Type := mkDeps {
  DefaultConfig : option error;
  Make : option error;
  NewDefaultConfig : string -> network_Config;
  Join : list string -> string;
  NodeIDPrefix : string;
  NewNetwork : network_Config -> Network + error;
}.

(** *** The orchestrator *)

(** Ghost history of the operations the claims count. *)
Inductive Event : Type :=
  | CloseStopc
  | NwStop
  | CloseDonec
  | SendErrc (e : error)
  | CloseReadyc.

#[global] Instance Event_eq_dec : EqDecision Event.
Proof. solve_decision. Defined.

(** The struct, without its logger and with the ghost [history]. A nil map
    is an empty one. *)
Record localNetwork : Type := mkLocalNetwork {
  binPath : string;
  cfg : network_Config;
  nw : option Network;
  nodeNames : list string;
  nodes : list (string * Node);
  nodeInfos : gmap string rpcpb.NodeInfo;
  apiClis : gmap string APIClient;
  readyc : chan unit;
  readycCloseOnce : Once;
  stopc : chan unit;
  donec : chan unit;
  errc : chan error;
  stopOnce : Once;
  history : list Event;
}.

Definition set_nw (v : option Network) (lc : localNetwork) : localNetwork :=
  mkLocalNetwork (binPath lc) (cfg lc) v (nodeNames lc) (nodes lc) (nodeInfos lc) (apiClis lc) (readyc lc) (readycCloseOnce lc) (stopc lc) (donec lc) (errc lc) (stopOnce lc) (history lc).

Definition set_nodes (v : list (string * Node)) (lc : localNetwork) : localNetwork :=
  mkLocalNetwork (binPath lc) (cfg lc) (nw lc) (nodeNames lc) v (nodeInfos lc) (apiClis lc) (readyc lc) (readycCloseOnce lc) (stopc lc) (donec lc) (errc lc) (stopOnce lc) (history lc).

Definition set_nodeInfos (v : gmap string rpcpb.NodeInfo) (lc : localNetwork) : localNetwork :=
  mkLocalNetwork (binPath lc) (cfg lc) (nw lc) (nodeNames lc) (nodes lc) v (apiClis lc) (readyc lc) (readycCloseOnce lc) (stopc lc) (donec lc) (errc lc) (stopOnce lc) (history lc).

Definition set_apiClis (v : gmap string APIClient) (lc : localNetwork) : localNetwork :=
  mkLocalNetwork (binPath lc) (cfg lc) (nw lc) (nodeNames lc) (nodes lc) (nodeInfos lc) v (readyc lc) (readycCloseOnce lc) (stopc lc) (donec lc) (errc lc) (stopOnce lc) (history lc).

Definition set_readyc (v : chan unit) (lc : localNetwork) : localNetwork :=
  mkLocalNetwork (binPath lc) (cfg lc) (nw lc) (nodeNames lc) (nodes lc) (nodeInfos lc) (apiClis lc) v (readycCloseOnce lc) (stopc lc) (donec lc) (errc lc) (stopOnce lc) (history lc).

Definition set_readycCloseOnce (v : Once) (lc : localNetwork) : localNetwork :=
  mkLocalNetwork (binPath lc) (cfg lc) (nw lc) (nodeNames lc) (nodes lc) (nodeInfos lc) (apiClis lc) (readyc lc) v (stopc lc) (donec lc) (errc lc) (stopOnce lc) (history lc).

Definition set_stopc (v : chan unit) (lc : localNetwork) : localNetwork :=
  mkLocalNetwork (binPath lc) (cfg lc) (nw lc) (nodeNames lc) (nodes lc) (nodeInfos lc) (apiClis lc) (readyc lc) (readycCloseOnce lc) v (donec lc) (errc lc) (stopOnce lc) (history lc).

Definition set_donec (v : chan unit) (lc : localNetwork) : localNetwork :=
  mkLocalNetwork (binPath lc) (cfg lc) (nw lc) (nodeNames lc) (nodes lc) (nodeInfos lc) (apiClis lc) (readyc lc) (readycCloseOnce lc) (stopc lc) v (errc lc) (stopOnce lc) (history lc).

Definition set_errc (v : chan error) (lc : localNetwork) : localNetwork :=
  mkLocalNetwork (binPath lc) (cfg lc) (nw lc) (nodeNames lc) (nodes lc) (nodeInfos lc) (apiClis lc) (readyc lc) (readycCloseOnce lc) (stopc lc) (donec lc) v (stopOnce lc) (history lc).

Definition set_stopOnce (v : Once) (lc : localNetwork) : localNetwork :=
  mkLocalNetwork (binPath lc) (cfg lc) (nw lc) (nodeNames lc) (nodes lc) (nodeInfos lc) (apiClis lc) (readyc lc) (readycCloseOnce lc) (stopc lc) (donec lc) (errc lc) v (history lc).

Definition set_history (v : list Event) (lc : localNetwork) : localNetwork :=
  mkLocalNetwork (binPath lc) (cfg lc) (nw lc) (nodeNames lc) (nodes lc) (nodeInfos lc) (apiClis lc) (readyc lc) (readycCloseOnce lc) (stopc lc) (donec lc) (errc lc) (stopOnce lc) v.


Definition record (e : Event) (lc : localNetwork) : localNetwork :=
  set_history (history lc ++ [e]) lc.

Definition occurrences (e : Event) (lc : localNetwork) : nat :=
  length (List.filter (fun x => bool_decide (x = e)) (history lc)).

Definition isSendErrc (x : Event) : bool :=
  match x with SendErrc _ => true | _ => false end.

Definition errors_sent (lc : localNetwork) : nat :=
  length (List.filter isSendErrc (history lc)).

(** *** [newNetwork] *)

Definition colors : list string :=
  ["{{green}}"; "{{orange}}"; "{{blue}}"; "{{magenta}}"; "{{cyan}}"].

(** The verb [%d] of [fmt.Sprintf] on a non-negative integer. *)
Definition decimal (n : nat) : string := NilEmpty.string_of_uint (Nat.to_uint n).

Definition dq : string := String (ascii_of_nat 34) EmptyString.
Definition nl : string := String (ascii_of_nat 10) EmptyString.
Definition tab : string := String (ascii_of_nat 9) EmptyString.

(** One line of the configuration payload: a key and its rendered value. *)
Definition entry (key value : string) : string :=
  tab +:+ dq +:+ key +:+ dq +:+ ":" +:+ value.

Definition quoted (v : string) : string := dq +:+ v +:+ dq.

(** The [fmt.Sprintf] of the configuration payload. *)
Definition configFile (logLevel logDir dbDir whitelistedSubnets : string) : string :=
  "{" +:+ nl
  +:+ entry "network-peer-list-gossip-frequency" (quoted "250ms") +:+ "," +:+ nl
  +:+ entry "network-max-reconnect-delay" (quoted "1s") +:+ "," +:+ nl
  +:+ entry "public-ip" (quoted "127.0.0.1") +:+ "," +:+ nl
  +:+ entry "health-check-frequency" (quoted "2s") +:+ "," +:+ nl
  +:+ entry "api-admin-enabled" "true" +:+ "," +:+ nl
  +:+ entry "api-ipcs-enabled" "true" +:+ "," +:+ nl
  +:+ entry "index-enabled" "true" +:+ "," +:+ nl
  +:+ entry "log-display-level" (quoted "INFO") +:+ "," +:+ nl
  +:+ entry "log-level" (quoted logLevel) +:+ "," +:+ nl
  +:+ entry "log-dir" (quoted logDir) +:+ "," +:+ nl
  +:+ entry "db-dir" (quoted dbDir) +:+ "," +:+ nl
  +:+ entry "whitelisted-subnets" (quoted whitelistedSubnets) +:+ nl
  +:+ "}".

(** [fmt.Sprintf("node%d", i+1)] *)
Definition nodeName (i : nat) : string := "node" +:+ decimal (i + 1).

(** What the loop of [newNetwork] has built so far. *)
Record Built : Type := mkBuilt {
  builtConfigs : list node_Config;
  builtNames : list string;
  builtInfos : gmap string rpcpb.NodeInfo;
}.

(** The loop [for i := range cfg.NodeConfigs], from index [i] on; [total]
    is [len(cfg.NodeConfigs)]. The index into [colors] is checked. *)
Fixpoint configure (d : Deps) (execPath rootDataDir whitelistedSubnets logLevel : string)
    (total i : nat) (ncs : list node_Config) (b : Built) : outcome Built :=
  match ncs with
  | [] => Ret b
  | _ :: rest =>
    let nodeName := nodeName i in
    let logDir := Join d [rootDataDir; nodeName; "log"] in
    let dbDir := Join d [rootDataDir; nodeName; "db-dir"] in
    let file := configFile logLevel logDir dbDir whitelistedSubnets in
    match colors !! (i mod total)%nat with
    | None => Panic "index out of range"
    | Some col =>
      let wr := mkWriter col nodeName in
      let nc := mkNodeConfig nodeName file (Some (mkLocalNodeConfig execPath wr wr)) in
      let info :=
        rpcpb.mkNodeInfo nodeName execPath "" "" logDir dbDir whitelistedSubnets file in
      configure d execPath rootDataDir whitelistedSubnets logLevel total (S i) rest
        (mkBuilt (builtConfigs b ++ [nc]) (builtNames b ++ [nodeName])
                 (<[nodeName := info]> (builtInfos b)))
    end
  end.

Definition newNetwork (d : Deps) (execPath rootDataDir whitelistedSubnets logLevel : string)
    : outcome (localNetwork + error) :=
  match DefaultConfig d with
  | Some err => Ret (inr err)
  | None =>
    match Make d with
    | Some err => Ret (inr err)
    | None =>
      let logLevel := if String.eqb logLevel "" then "INFO" else logLevel in
      let cfg := NewDefaultConfig d execPath in
      match configure d execPath rootDataDir whitelistedSubnets logLevel
              (length (NodeConfigs cfg)) 0 (NodeConfigs cfg) (mkBuilt [] [] ∅) with
      | Ret b =>
        Ret (inl (mkLocalNetwork execPath (mkNetworkConfig (builtConfigs b)) None
                    (builtNames b) [] (builtInfos b) ∅
                    (make unit 0) newOnce
                    (make unit 0) (make unit 0) (make error 1)
                    newOnce []))
      | Panic w => Panic w
      | Blocked => Blocked
      end
    end
  end.

(** *** [waitForHealthy] *)

Definition Minute : N := 60 * 1000000000.
Definition healthyWait : N := 2 * Minute.

(** Times are nanoseconds since the context of [waitForHealthy] was
    created. [pollAt] is when the [select] is evaluated; [stopAt] is when
    [stopc] gets closed by a caller of [stop], if it does. *)
Record Signals : Type := mkSignals { pollAt : N; stopAt : option N }.

Inductive Case : Type :=
  | StopCase                          (* [<-lc.stopc] *)
  | DoneCase                          (* [<-ctx.Done()] *)
  | HealthCase (err : option error).  (* [err := <-hc] *)

(** When [stopc] is ready: from the start if it is closed already. *)
Definition stop_ready (sg : Signals) (lc : localNetwork) : option N :=
  if closed (stopc lc) then Some 0%N else stopAt sg.

Definition omin (o : option N) (t : N) : N :=
  match o with Some x => N.min x t | None => t end.

(** When the channel of [Healthy] is ready. *)
Definition health_ready (n : Network) : option N :=
  match Healthy n with Some (t, _) => Some t | None => None end.

(** The first moment a case of the [select] can proceed. *)
Definition earliest (sg : Signals) (lc : localNetwork) (n : Network) : N :=
  omin (stop_ready sg lc) (omin (health_ready n) healthyWait).

(** When the [select] proceeds: at once if a case is ready when it is
    evaluated, and otherwise when the first one becomes ready. *)
Definition fire (sg : Signals) (lc : localNetwork) (n : Network) : N :=
  N.max (pollAt sg) (earliest sg lc n).

Definition ready_by (t : N) (o : option N) : bool :=
  match o with Some x => (x <=? t)%N | None => false end.

(** The cases that can proceed when the [select] does. Go chooses among
    them at random. *)
Definition select_ready (sg : Signals) (lc : localNetwork) (n : Network) : list Case :=
  let T := fire sg lc n in
  (if ready_by T (stop_ready sg lc) then [StopCase] else [])
  ++ (if (healthyWait <=? T)%N then [DoneCase] else [])
  ++ match Healthy n with
     | Some (t, e) => if (t <=? T)%N then [HealthCase e] else []
     | None => []
     end.

Definition setUri (uri : string) (i : rpcpb.NodeInfo) : rpcpb.NodeInfo :=
  rpcpb.mkNodeInfo (rpcpb.Name i) (rpcpb.ExecPath i) uri (rpcpb.Id i) (rpcpb.LogDir i)
    (rpcpb.DbDir i) (rpcpb.WhitelistedSubnets i) (rpcpb.Config i).

Definition setId (id : string) (i : rpcpb.NodeInfo) : rpcpb.NodeInfo :=
  rpcpb.mkNodeInfo (rpcpb.Name i) (rpcpb.ExecPath i) (rpcpb.Uri i) id (rpcpb.LogDir i)
    (rpcpb.DbDir i) (rpcpb.WhitelistedSubnets i) (rpcpb.Config i).

(** [fmt.Sprintf("http://%s:%d", node.GetURL(), node.GetAPIPort())] *)
Definition uriOf (node : Node) : string :=
  "http://" +:+ GetURL node +:+ ":" +:+ decimal (GetAPIPort node).

(** [node.GetNodeID().PrefixedString(constants.NodeIDPrefix)] *)
Definition nodeIDOf (d : Deps) (node : Node) : string :=
  NodeIDPrefix d +:+ GetNodeID node.

(** The three writes of the loop body. The registry holds pointers, so a
    field assignment changes the record in place. *)
Definition writeUri (name : string) (node : Node) (lc : localNetwork) : localNetwork :=
  set_nodeInfos (alter (setUri (uriOf node)) name (nodeInfos lc)) lc.

Definition writeId (d : Deps) (name : string) (node : Node) (lc : localNetwork)
    : localNetwork :=
  set_nodeInfos (alter (setId (nodeIDOf d node)) name (nodeInfos lc)) lc.

Definition writeClient (name : string) (node : Node) (lc : localNetwork) : localNetwork :=
  set_apiClis (<[name := GetAPIClient node]> (apiClis lc)) lc.

(** [for name, node := range nodes]: a name without a record is a nil
    pointer, and assigning to its field panics. *)
Fixpoint fillAll (d : Deps) (nodes : list (string * Node)) (lc : localNetwork)
    : localNetwork * outcome unit :=
  match nodes with
  | [] => (lc, Ret tt)
  | (name, node) :: rest =>
    match nodeInfos lc !! name with
    | None => (lc, Panic "invalid memory address or nil pointer dereference")
    | Some _ =>
      fillAll d rest (writeClient name node (writeId d name node (writeUri name node lc)))
    end
  end.

(** The stores the loop passes through, one after each write. *)
Fixpoint fillStates (d : Deps) (nodes : list (string * Node)) (lc : localNetwork)
    : list localNetwork :=
  match nodes with
  | [] => []
  | (name, node) :: rest =>
    match nodeInfos lc !! name with
    | None => []
    | Some _ =>
      let l1 := writeUri name node lc in
      let l2 := writeId d name node l1 in
      let l3 := writeClient name node l2 in
      l1 :: l2 :: l3 :: fillStates d rest l3
    end
  end.

(** [lc.readycCloseOnce.Do(func() { close(lc.readyc) })], uncontended. *)
Definition closeReadyc (lc : localNetwork) : localNetwork * outcome unit :=
  if done (readycCloseOnce lc) then (lc, Ret tt)
  else
    match close (readyc lc) with
    | Ret ch =>
      (record CloseReadyc (set_readycCloseOnce (mkOnce true false) (set_readyc ch lc)),
       Ret tt)
    | Panic w => (set_readycCloseOnce (mkOnce true false) lc, Panic w)
    | Blocked => (lc, Blocked)
    end.

(** The function from the case the [select] chose. *)
Definition afterSelect (d : Deps) (n : Network) (pick : Case) (lc : localNetwork)
    : localNetwork * outcome (option error) :=
  match pick with
  | StopCase => (lc, Ret (Some errAborted))
  | DoneCase => (lc, Ret (Some context_DeadlineExceeded))
  | HealthCase (Some err) => (lc, Ret (Some err))
  | HealthCase None =>
    match GetAllNodes n with
    | (_, Some err) => (lc, Ret (Some err))
    | (nodes, None) =>
      match fillAll d nodes (set_nodes nodes lc) with
      | (lc', Ret _) =>
        match closeReadyc lc' with
        | (lc'', Ret _) => (lc'', Ret None)
        | (lc'', Panic w) => (lc'', Panic w)
        | (lc'', Blocked) => (lc'', Blocked)
        end
      | (lc', Panic w) => (lc', Panic w)
      | (lc', Blocked) => (lc', Blocked)
      end
    end
  end.

(** Every way [waitForHealthy] can end under the given signals. *)
Definition waitForHealthy (d : Deps) (sg : Signals) (lc : localNetwork)
    : list (localNetwork * outcome (option error)) :=
  match nw lc with
  | None => [(lc, Panic "invalid memory address or nil pointer dereference")]
  | Some n => map (fun pick => afterSelect d n pick lc) (select_ready sg lc n)
  end.

(** Every store a reader without synchronisation can see while the
    successful path runs: the entry store, the stores between the writes
    and the store after [readyc] is closed. *)
Definition publishStates (d : Deps) (n : Network) (lc : localNetwork) : list localNetwork :=
  let nodes := fst (GetAllNodes n) in
  let lc0 := set_nodes nodes lc in
  lc :: lc0 :: fillStates d nodes lc0
  ++ match fillAll d nodes lc0 with
     | (lc', Ret _) => [fst (closeReadyc lc')]
     | _ => []
     end.

(** *** [start] *)

(** [lc.errc <- err] *)
Definition report (err : error) (lc : localNetwork) : localNetwork * outcome unit :=
  match send (errc lc) err with
  | Ret ch => (record (SendErrc err) (set_errc ch lc), Ret tt)
  | Panic w => (lc, Panic w)
  | Blocked => (lc, Blocked)
  end.

(** [defer func() { close(lc.donec) }()]: it runs when the body returns or
    panics, not while the body is parked. *)
Definition deferred (r : localNetwork * outcome unit) : localNetwork * outcome unit :=
  match r with
  | (lc, Blocked) => (lc, Blocked)
  | (lc, o) =>
    match close (donec lc) with
    | Ret ch => (record CloseDonec (set_donec ch lc), o)
    | Panic w => (lc, Panic w)
    | Blocked => (lc, Blocked)
    end
  end.

Definition start (d : Deps) (sg : Signals) (lc : localNetwork)
    : list (localNetwork * outcome unit) :=
  match NewNetwork d (cfg lc) with
  | inr err => [deferred (report err lc)]
  | inl n =>
    map (fun r =>
           deferred
             match r with
             | (lc', Ret None) => (lc', Ret tt)
             | (lc', Ret (Some err)) => report err lc'
             | (lc', Panic w) => (lc', Panic w)
             | (lc', Blocked) => (lc', Blocked)
             end)
        (waitForHealthy d sg (set_nw (Some n) lc))
  end.

(** *** [stop] *)

(** Where a goroutine that called [stop] is. *)
Inductive Pc : Type :=
  | AtDo           (* entering [stopOnce.Do]: the fast check of [done] *)
  | AtLock         (* in [doSlow], waiting for the mutex *)
  | AtCheck        (* mutex held, second check of [done] *)
  | AtCloseStopc   (* [close(lc.stopc)] *)
  | AtNwStop       (* [lc.nw.Stop(context.Background())] *)
  | AtDonec        (* [<-lc.donec] *)
  | AtOutf         (* [color.Outf], then the deferred store and unlock *)
  | Returned
  | Panicked.

#[global] Instance Pc_eq_dec : EqDecision Pc.
Proof. solve_decision. Defined.

(** The two deferred calls of [doSlow]: [o.done.Store(1)], [o.m.Unlock()]. *)
Definition unwind (lc : localNetwork) : localNetwork :=
  set_stopOnce (mkOnce true false) lc.

(** One step of a caller; [None] when it cannot move. *)
Definition stop_step (lc : localNetwork) (pc : Pc) : option (localNetwork * Pc) :=
  match pc with
  | AtDo => if done (stopOnce lc) then Some (lc, Returned) else Some (lc, AtLock)
  | AtLock =>
    if m (stopOnce lc) then None
    else Some (set_stopOnce (mkOnce (done (stopOnce lc)) true) lc, AtCheck)
  | AtCheck =>
    if done (stopOnce lc)
    then Some (set_stopOnce (mkOnce true false) lc, Returned)
    else Some (lc, AtCloseStopc)
  | AtCloseStopc =>
    match close (stopc lc) with
    | Ret ch => Some (record CloseStopc (set_stopc ch lc), AtNwStop)
    | _ => Some (unwind lc, Panicked)
    end
  | AtNwStop =>
    match nw lc with
    | None => Some (unwind lc, Panicked)
    | Some _ => Some (record NwStop lc, AtDonec)
    end
  | AtDonec => if closed (donec lc) then Some (lc, AtOutf) else None
  | AtOutf => Some (unwind lc, Returned)
  | Returned | Panicked => None
  end.

(** A single caller run to its end; a caller that cannot move is parked
    for good when nothing else runs. *)
Fixpoint run_stop (fuel : nat) (lc : localNetwork) (pc : Pc) : localNetwork * outcome unit :=
  match pc with
  | Returned => (lc, Ret tt)
  | Panicked => (lc, Panic "invalid memory address or nil pointer dereference")
  | _ =>
    match fuel with
    | O => (lc, Blocked)
    | S fuel' =>
      match stop_step lc pc with
      | Some (lc', pc') => run_stop fuel' lc' pc'
      | None => (lc, Blocked)
      end
    end
  end.

(** [stop()] called alone: the longest path has seven steps. *)
Definition stop (lc : localNetwork) : localNetwork * outcome unit := run_stop 8 lc AtDo.

(** Several callers of [stop] and the run loop. *)
Record System : Type := mkSystem { net : localNetwork; callers : list Pc }.

Inductive step : System -> System -> Prop :=
  | step_caller (s : System) (i : nat) (pc pc' : Pc) (lc' : localNetwork) :
      callers s !! i = Some pc ->
      stop_step (net s) pc = Some (lc', pc') ->
      step s (mkSystem lc' (<[i := pc']> (callers s)))
  | step_run_loop (s : System) (ch : chan unit) :
      (* the deferred [close(lc.donec)] of [start] *)
      close (donec (net s)) = Ret ch ->
      step s (mkSystem (record CloseDonec (set_donec ch (net s))) (callers s)).

Definition steps : System -> System -> Prop := rtc step.

(** A schedule: which goroutine moves next. *)
Inductive Move : Type :=
  | Caller (i : nat)
  | RunLoop.

Definition move (mv : Move) (s : System) : option System :=
  match mv with
  | Caller i =>
    match callers s !! i with
    | Some pc =>
      match stop_step (net s) pc with
      | Some (lc', pc') => Some (mkSystem lc' (<[i := pc']> (callers s)))
      | None => None
      end
    | None => None
    end
  | RunLoop =>
    match close (donec (net s)) with
    | Ret ch => Some (mkSystem (record CloseDonec (set_donec ch (net s))) (callers s))
    | _ => None
    end
  end.

Fixpoint schedule (mvs : list Move) (s : System) : option System :=
  match mvs with
  | [] => Some s
  | mv :: rest =>
    match move mv s with
    | Some s' => schedule rest s'
    | None => None
    end
  end.

End Server.

(* ===================================================================== *)
(** ** [cmd/avalanche-network-runner/server/server.go]                    *)
(* ===================================================================== *)

Module Cmd.

(** What the host process meets: the results of [lcfg.Build()] and of
    [server.New]; whether a termination signal arrives; whether [s.Run]
    returns by itself, and with what; and what it returns, if it returns,
    once the root context has been cancelled. *)
Record Host : Type := mkHost {
  Build : option error;
  New : option error;
  signal : option string;
  runAlone : option (option error);
  runCancelled : option (option error);
}.

Inductive HostEvent : Type :=
  | ReplaceGlobals
  | GoRun                                   (* [go func() { errc <- s.Run(rootCtx) }()] *)
  | Notify                                  (* [signal.Notify(sigc, SIGINT, SIGTERM)] *)
  | Warn (msg : string) (e : option error)
  | RootCancel
  | RecvErrc (e : option error).            (* a receive from [errc] *)

(** How [serverFunc] ends: [log.Fatalf] exits the process, the function
    returns its named result, or it never returns. *)
Inductive Exit : Type :=
  | Fatal
  | Return (err : option error)
  | Hang.

Definition isRootCancel (e : HostEvent) : bool :=
  match e with RootCancel => true | _ => false end.

Definition isRecvErrc (e : HostEvent) : bool :=
  match e with RecvErrc _ => true | _ => false end.

Definition started : list HostEvent := [ReplaceGlobals; GoRun; Notify].

(** The case [sig := <-sigc]: the named result [err] is not assigned. *)
Definition bySignal (h : Host) : list (list HostEvent * Exit) :=
  match signal h with
  | None => []
  | Some _ =>
    match runCancelled h with
    | Some e =>
      [(started ++ [Warn "signal received; closing server" None; RootCancel;
                    RecvErrc e; Warn "closed server" e],
        Return None)]
    | None =>
      [(started ++ [Warn "signal received; closing server" None; RootCancel], Hang)]
    end
  end.

(** The case [err = <-errc]. *)
Definition byRun (h : Host) : list (list HostEvent * Exit) :=
  match runAlone h with
  | None => []
  | Some e => [(started ++ [RecvErrc e; Warn "server closed" e; RootCancel], Return e)]
  end.

(** Every way [serverFunc] can run on a host. When both cases of the
    [select] can proceed, either may be taken; when none can, it blocks. *)
Definition serverFunc (h : Host) : list (list HostEvent * Exit) :=
  match Build h with
  | Some _ => [([], Fatal)]
  | None =>
    match New h with
    | Some err => [([ReplaceGlobals], Return (Some err))]
    | None =>
      match bySignal h ++ byRun h with
      | [] => [(started, Hang)]
      | runs => runs
      end
    end
  end.

End Cmd.

(* ===================================================================== *)
(** ** A concrete cluster                                                 *)
(* ===================================================================== *)

(** Five nodes, as the default configuration of the runner has them, and a
    collaborator that reports healthy after ten seconds. *)
Module Scenario.

Import Server.

Definition Second : N := 1000000000.

Definition handle (k : nat) : Node :=
  mkNode "127.0.0.1" (9650 + 2 * k) ("7Xhw2mDxuDS44j42TCB6U5579esbSt3Lg" +:+ decimal k) k.

Definition handles : list (string * Node) :=
  map (fun k => (nodeName k, handle k)) (seq 0 5).

Definition healthyNetwork : Network :=
  mkNetwork (Some (10 * Second, None)%N) (handles, None) None.

Definition deps : Deps :=
  mkDeps None None
    (fun _ => mkNetworkConfig (replicate 5 (mkNodeConfig "" "" None)))
    (String.concat "/")
    "NodeID-"
    (fun _ => inl healthyNetwork).

(** The orchestrator [newNetwork] builds, if it builds one. *)
Definition built (d : Deps) : option localNetwork :=
  match newNetwork d "/usr/local/bin/node" "/tmp/network-runner" "" "" with
  | Ret (inl lc) => Some lc
  | _ => None
  end.

Definition created : localNetwork :=
  default (mkLocalNetwork "" (mkNetworkConfig []) None [] [] ∅ ∅
             (make unit 0) newOnce (make unit 0) (make unit 0) (make error 1) newOnce [])
          (built deps).

(** The orchestrator once [start] has stored the network handle. *)
Definition launched : localNetwork := set_nw (Some healthyNetwork) created.

(** A collaborator that reports healthy 500 ns after the call, a stop
    request 200 ns after it, and a [select] evaluated after 1000 ns. *)
Definition promptNetwork : Network := mkNetwork (Some (500, None)%N) (handles, None) None.

Definition racing : Signals := mkSignals 1000 (Some 200%N).

(** A collaborator that never reports, and nobody asking to stop. *)
Definition silentNetwork : Network := mkNetwork None (handles, None) None.

Definition quiet : Signals := mkSignals 0 None.

(** A stop request after one second of waiting in the [select]. *)
Definition stopping : Signals := mkSignals 1000 (Some Second).

Definition prompt : localNetwork := set_nw (Some promptNetwork) created.

Definition silent : localNetwork := set_nw (Some silentNetwork) created.

(** The orchestrator after a health wait that succeeded. *)
Definition healthy : localNetwork :=
  fst (afterSelect deps healthyNetwork (HealthCase None) launched).

(** The store right after the first field write of the loop. *)
Definition midway : localNetwork :=
  writeUri (nodeName 0) (handle 0) (set_nodes handles launched).

(** A launch that fails. *)
Definition failingDeps : Deps :=
  mkDeps None None (NewDefaultConfig deps) (Join deps) (NodeIDPrefix deps)
    (fun _ => inr (OtherError "launch failed")).

(** Two goroutines call [stop] while the run loop finishes. *)
Definition twoCallers : System := mkSystem launched [AtDo; AtDo].

Definition interleaving : list Move :=
  [Caller 0; Caller 0; Caller 0; Caller 0; Caller 0; Caller 1; RunLoop;
   Caller 0; Caller 0; Caller 1; Caller 1].

Definition afterStop : System := default twoCallers (schedule interleaving twoCallers).

(** A default configuration of six nodes, one more than there are colours. *)
Definition sixDeps : Deps :=
  mkDeps None None
    (fun _ => mkNetworkConfig (replicate 6 (mkNodeConfig "" "" None)))
    (Join deps) (NodeIDPrefix deps) (NewNetwork deps).

(** A collaborator that reports a failure after five seconds. *)
Definition failingNetwork : Network :=
  mkNetwork (Some (5 * Second, Some (OtherError "node3 is not healthy"))%N)
    (handles, None) None.

Definition failing : localNetwork := set_nw (Some failingNetwork) created.

(** A collaborator that reports healthy after the ceiling. *)
Definition lateNetwork : Network := mkNetwork (Some (130 * Second, None)%N) (handles, None) None.

Definition late : localNetwork := set_nw (Some lateNetwork) created.

(** A collaborator whose map has a node that was never configured. *)
Definition strayNetwork : Network :=
  mkNetwork (Some (10 * Second, None)%N) (handles ++ [("node9", handle 8)], None) None.

Definition stray : localNetwork := set_nw (Some strayNetwork) created.

(** The orchestrator once its run loop has finished. *)
Definition finished : localNetwork := set_donec (mkChan 0 [] true) launched.

(** A host that gets a termination signal while its server runs, the
    server ending with an error once cancelled. *)
Definition interrupted : Cmd.Host :=
  Cmd.mkHost None None (Some "interrupt") None
    (Some (Some (OtherError "http: Server closed"))).

Definition twoTurns : list Client.Turn :=
  [Client.mkTurn false false None None None true; Client.mkTurn false false None None None true].

Definition endedRoutine : Client.Routine :=
  match Client.receiveRoutine (twoTurns ++ [Client.mkTurn false false None (Some io_EOF) None true]) with
  | Client.Ended _ r => r
  | Client.Receiving r | Client.Parked r => r
  end.

Definition signalTrace : list Cmd.HostEvent :=
  Cmd.started
  ++ [Cmd.Warn "signal received; closing server" None; Cmd.RootCancel;
      Cmd.RecvErrc (Some (OtherError "http: Server closed"));
      Cmd.Warn "closed server" (Some (OtherError "http: Server closed"))].

(** A host whose [server.New] fails. *)
Definition unbound : Cmd.Host :=
  Cmd.mkHost None (Some (OtherError "listen tcp :8080: bind: address already in use"))
    None None None.

Definition stoppedEarly : localNetwork := set_stopc (mkChan 0 [] true) created.




End Scenario.

(* ===================================================================== *)
(** ** Predicates of the specification                                    *)
(* ===================================================================== *)

Module ClientSpec.

Import Client.

Definition sends (pre : list Turn) : list ChanOp := map (fun t => Send (recvInfo t)) pre.

End ClientSpec.

Module ServerSpec.

Import Server.

(** The part of the state [start] signals through. *)
Definition signalling (lc : localNetwork) : chan unit * chan error * nat * nat :=
  (donec lc, errc lc, occurrences CloseDonec lc, errors_sent lc).

Definition fresh (lc : localNetwork) : Prop :=
  nw lc = None /\ nodes lc = []
  /\ readyc lc = make unit 0 /\ readycCloseOnce lc = newOnce
  /\ stopc lc = make unit 0 /\ donec lc = make unit 0 /\ errc lc = make error 1
  /\ stopOnce lc = newOnce /\ history lc = [].

(** What [start] owes its waiter, on a run that ended in [r]. *)
Definition signalled (r : localNetwork * outcome unit) : Prop :=
  snd r <> Blocked
  /\ closed (donec (fst r)) = true
  /\ occurrences CloseDonec (fst r) = 1%nat
  /\ (errors_sent (fst r) <= 1)%nat
  /\ length (buf (errc (fst r))) = errors_sent (fst r).

(** The stop request comes first: before the ceiling, and before the
    collaborator reports anything. *)
Definition stop_first (sg : Signals) (lc : localNetwork) (n : Network) : Prop :=
  exists ts, stop_ready sg lc = Some ts
             /\ (ts < healthyWait)%N
             /\ forall th e, Healthy n = Some (th, e) -> (ts < th)%N.

(** Nothing but the stop request is ready when the [select] is evaluated. *)
Definition polled_early (sg : Signals) (n : Network) : Prop :=
  (pollAt sg < healthyWait)%N
  /\ forall th e, Healthy n = Some (th, e) -> (pollAt sg < th)%N.

(** A record before and after the health wait, and the invariant of the
    data model: never exactly one of the two fields set. *)
Definition blank (i : rpcpb.NodeInfo) : Prop := rpcpb.Uri i = "" /\ rpcpb.Id i = "".
Definition filled (i : rpcpb.NodeInfo) : Prop := rpcpb.Uri i <> "" /\ rpcpb.Id i <> "".
Definition whole (i : rpcpb.NodeInfo) : Prop := blank i \/ filled i.

Definition consistent (lc : localNetwork) : Prop :=
  forall name i, nodeInfos lc !! name = Some i -> whole i.

(** The registry holds a filled record for every name of the list. *)
Definition populated (names : list string) (lc : localNetwork) : Prop :=
  forall name, name ∈ names -> exists i, nodeInfos lc !! name = Some i /\ filled i.


(** The claims as the specification words them, for the cases where the
    code differs. *)

(** "Priority is given to the caller-initiated stop": whenever the stop
    request comes first, the wait returns [errAborted]. *)
Definition stop_has_priority (d : Deps) (sg : Signals) (lc : localNetwork) (n : Network)
    : Prop :=
  nw lc = Some n ->
  stop_first sg lc n ->
  Forall (fun r => snd r = Ret (Some errAborted)) (waitForHealthy d sg lc).

(** "The registry is published atomically": every store a reader can see
    has all records blank or all records filled. *)
Definition atomic_publish (d : Deps) (n : Network) (lc : localNetwork) : Prop :=
  forall s, s ∈ publishStates d n lc ->
    (forall name i, nodeInfos s !! name = Some i -> blank i)
    \/ (forall name i, nodeInfos s !! name = Some i -> filled i).

(** How many callers are at a program point. *)
Definition population (q : Pc) (pcs : list Pc) : nat :=
  length (List.filter (fun pc => bool_decide (pc = q)) pcs).

(** The system before any caller of [stop] has moved: the handle is
    stored, the guard and [stopc] are untouched, [Stop] was never called. *)
Definition initial (s : System) : Prop :=
  nw (net s) <> None
  /\ stopOnce (net s) = newOnce
  /\ closed (stopc (net s)) = false
  /\ occurrences NwStop (net s) = 0%nat
  /\ Forall (fun pc => pc = AtDo) (callers s).

(** The invariant of the execute-once guard. *)
Definition guarded (s : System) : Prop :=
  let lc := net s in
  let at_ q := population q (callers s) in
  nw lc <> None
  /\ (at_ AtCheck + at_ AtCloseStopc + at_ AtNwStop + at_ AtDonec + at_ AtOutf
      = Nat.b2n (m (stopOnce lc)))%nat
  /\ at_ Panicked = 0%nat
  /\ (Nat.b2n (done (stopOnce lc))
      * (at_ AtCloseStopc + at_ AtNwStop + at_ AtDonec + at_ AtOutf) = 0)%nat
  /\ (occurrences NwStop lc = at_ AtDonec + at_ AtOutf + Nat.b2n (done (stopOnce lc)))%nat
  /\ (Nat.b2n (closed (stopc lc))
      = at_ AtNwStop + at_ AtDonec + at_ AtOutf + Nat.b2n (done (stopOnce lc)))%nat
  /\ (Nat.b2n (negb (closed (donec lc))) * at_ AtOutf = 0)%nat
  /\ (Nat.b2n (done (stopOnce lc)) <= Nat.b2n (closed (donec lc)))%nat
  /\ (Nat.b2n (negb (done (stopOnce lc))) * at_ Returned = 0)%nat.


(** What [newNetwork] computes for the node of index [i]. *)
Definition effectiveLevel (logLevel : string) : string :=
  if String.eqb logLevel "" then "INFO" else logLevel.

Definition logDirOf (d : Deps) (rootDataDir : string) (i : nat) : string :=
  Join d [rootDataDir; nodeName i; "log"].

Definition dbDirOf (d : Deps) (rootDataDir : string) (i : nat) : string :=
  Join d [rootDataDir; nodeName i; "db-dir"].

Definition payloadOf (d : Deps) (rootDataDir whitelistedSubnets logLevel : string) (i : nat)
    : string :=
  configFile (effectiveLevel logLevel) (logDirOf d rootDataDir i) (dbDirOf d rootDataDir i)
    whitelistedSubnets.

Definition configOf (d : Deps) (execPath rootDataDir whitelistedSubnets logLevel : string)
    (col : string) (i : nat) : node_Config :=
  mkNodeConfig (nodeName i) (payloadOf d rootDataDir whitelistedSubnets logLevel i)
    (Some (mkLocalNodeConfig execPath (mkWriter col (nodeName i)) (mkWriter col (nodeName i)))).

Definition infoOf (d : Deps) (execPath rootDataDir whitelistedSubnets logLevel : string)
    (i : nat) : rpcpb.NodeInfo :=
  rpcpb.mkNodeInfo (nodeName i) execPath "" "" (logDirOf d rootDataDir i)
    (dbDirOf d rootDataDir i) whitelistedSubnets
    (payloadOf d rootDataDir whitelistedSubnets logLevel i).

(** The loop of [waitForHealthy] finds a record under the name. *)
Definition known (lc : localNetwork) (name : string) : Prop :=
  is_Some (nodeInfos lc !! name).

(** The two field writes of the loop body, on a record. *)
Definition fillRecord (d : Deps) (node : Node) (i : rpcpb.NodeInfo) : rpcpb.NodeInfo :=
  setId (nodeIDOf d node) (setUri (uriOf node) i).

(** Two orchestrators that differ at most in the registry and the API
    clients. *)
Definition same_but_registry (lc lc' : localNetwork) : Prop :=
  lc' = set_apiClis (apiClis lc') (set_nodeInfos (nodeInfos lc') lc).

(** The health report comes first, and the [select] is evaluated before
    anything else is ready. *)
Definition health_first (sg : Signals) (lc : localNetwork) (n : Network) (th : N) : Prop :=
  (th < healthyWait)%N
  /\ (pollAt sg < healthyWait)%N
  /\ forall ts, stop_ready sg lc = Some ts -> (th < ts)%N /\ (pollAt sg < ts)%N.

(** The deadline comes first. *)
Definition deadline_first (sg : Signals) (lc : localNetwork) (n : Network) : Prop :=
  (forall ts, stop_ready sg lc = Some ts -> (healthyWait < ts)%N /\ (pollAt sg < ts)%N)
  /\ (forall th e, Healthy n = Some (th, e) -> (healthyWait < th)%N /\ (pollAt sg < th)%N).

(** The error channel as [newNetwork] makes it, and before any send. *)
Definition errc_ready (lc : localNetwork) : Prop :=
  closed (errc lc) = false /\ buf (errc lc) = [] /\ cap (errc lc) = 1%nat.

(** What [start] makes of a run of the health wait: what it returns (a
    panic goes on, anything else ends the call) and what it leaves in the
    error channel. *)
Definition start_of_wait (w : localNetwork * outcome (option error))
    (s : localNetwork * outcome unit) : Prop :=
  snd s = match snd w with Panic p => Panic p | _ => Ret tt end
  /\ buf (errc (fst s)) = match snd w with Ret (Some err) => [err] | _ => [] end
  /\ closed (donec (fst s)) = true
  /\ nodeInfos (fst s) = nodeInfos (fst w)
  /\ nw (fst s) = nw (fst w).

(** How many steps a caller of [stop] has before it, at most. *)
Definition remaining (pc : Pc) : nat :=
  match pc with
  | AtDo => 7 | AtLock => 6 | AtCheck => 5 | AtCloseStopc => 4 | AtNwStop => 3
  | AtDonec => 2 | AtOutf => 1 | Returned => 0 | Panicked => 0
  end.

Definition work (pcs : list Pc) : nat := sum_list (remaining <$> pcs).

(** The text of the panic on a nil record or handle. *)
Definition nilDereference : string := "invalid memory address or nil pointer dereference".





End ServerSpec.

(* ===================================================================== *)
(** * Properties                                                          *)
(* ===================================================================== *)

(** ** [strings.HasPrefix] and [strings.HasSuffix] *)

Section GoStringsFacts.

Import GoStrings.

Lemma length_append_str (a b : string) :
  String.length (a +:+ b) = (String.length a + String.length b)%nat.
Proof. induction a as [|c a IH]; simpl; [reflexivity | now rewrite IH]. Qed.

Lemma substring_all (s : string) : substring 0 (String.length s) s = s.
Proof. induction s as [|c s IH]; simpl; [reflexivity | now rewrite IH]. Qed.

Lemma substring_head (p r : string) :
  substring 0 (String.length p) (p +:+ r) = p.
Proof.
  induction p as [|c p IH]; simpl.
  - destruct r; reflexivity.
  - now rewrite IH.
Qed.

Lemma substring_tail (r q : string) :
  substring (String.length r) (String.length q) (r +:+ q) = q.
Proof.
  induction r as [|c r IH]; simpl; [apply substring_all | exact IH].
Qed.

Lemma substring_split (n : nat) (s : string) :
  (n <= String.length s)%nat ->
  s = substring 0 n s +:+ substring n (String.length s - n) s.
Proof.
  revert n; induction s as [|c s IH]; intros n Hn; simpl in *.
  - destruct n; [reflexivity | lia].
  - destruct n as [|n]; simpl.
    + now rewrite substring_all.
    + change (String c s = String c (substring 0 n s +:+ substring n (String.length s - n) s)).
      f_equal. apply IH. lia.
Qed.

Lemma HasPrefix_spec (s p : string) :
  HasPrefix s p = true <-> starts_with p s.
Proof.
  unfold HasPrefix, starts_with. rewrite andb_true_iff, Nat.leb_le, String.eqb_eq.
  split.
  - intros [Hlen Hsub].
    exists (substring (String.length p) (String.length s - String.length p) s).
    rewrite <- Hsub at 1. now apply substring_split.
  - intros [r ->]. rewrite length_append_str, substring_head. split; [lia | reflexivity].
Qed.

Lemma HasSuffix_spec (s q : string) :
  HasSuffix s q = true <-> ends_with q s.
Proof.
  unfold HasSuffix, ends_with. rewrite andb_true_iff, Nat.leb_le, String.eqb_eq.
  split.
  - intros [Hlen Hsub].
    exists (substring 0 (String.length s - String.length q) s).
    pose proof (substring_split (String.length s - String.length q) s) as Hsplit.
    replace (String.length s - (String.length s - String.length q))%nat
      with (String.length q) in Hsplit by lia.
    rewrite Hsub in Hsplit. apply Hsplit. lia.
  - intros [r ->]. rewrite length_append_str.
    replace (String.length r + String.length q - String.length q)%nat
      with (String.length r) by lia.
    rewrite substring_tail. split; [lia | reflexivity].
Qed.


(** A string that starts with ["stream error: "] and ends with
    ["; CANCEL"] has both around a middle part: the two cannot overlap. *)
Lemma stream_error_pattern (msg : string) :
  starts_with "stream error: " msg /\ ends_with "; CANCEL" msg
  <-> exists mid, msg = "stream error: " +:+ mid +:+ "; CANCEL".
Proof.
  split.
  - intros [[r ->] [r' Hr']]. simpl in Hr'. 
    assert (ends_with "; CANCEL" r) as [mid ->].
    { apply HasSuffix_spec.
      do 14 (destruct r' as [|? r']; [simpl in Hr'; repeat (destruct r as [|? r]; try discriminate) |
                                      simpl in Hr'; injection Hr' as _ Hr']).
      apply HasSuffix_spec. exists r'. exact Hr'. }
    exists mid. reflexivity.
  - intros [mid ->]. split.
    + exists (mid +:+ "; CANCEL"). reflexivity.
    + exists ("stream error: " +:+ mid). simpl. reflexivity.
Qed.

End GoStringsFacts.

(** ** The client: stream classification *)

Section ClientFacts.

Import GoStrings Client ClientSpec.

Lemma FromError_status (c : Code) (msg : string) :
  FromError (Some (StatusError c msg)) = (mkStatus c msg, true).
Proof. reflexivity. Qed.

(** An error without a status is never a cancellation by itself. *)
Lemma isClientCanceled_no_status (err : option error) :
  rpc_status err = None -> isClientCanceled None err = false.
Proof. destruct err as [[]|]; simpl; intros H; try reflexivity; discriminate. Qed.

Lemma isClientCanceled_status (c : Code) (msg : string) :
  isClientCanceled None (Some (StatusError c msg)) = true <-> cancel_status c msg.
Proof.
  unfold cancel_status. destruct c; simpl;
    try (split; [discriminate | intros [?|[?|[[? _]|[? _]]]]; discriminate]);
    try (split; [auto | reflexivity]).
  (* Unavailable *)
  destruct (String.eqb_spec msg "client disconnected") as [Heq|Hne].
  - split; [intros _ | reflexivity]. right; right; left. auto.
  - destruct (HasPrefix msg "stream error: ") eqn:Hp;
    destruct (HasSuffix msg "; CANCEL") eqn:Hs; simpl.
    + split; [intros _ | reflexivity]. right; right; right.
      split; [reflexivity|]. split; [now apply HasPrefix_spec | now apply HasSuffix_spec].
    + split; [discriminate|].
      intros [?|[?|[[_ ?]|[_ [_ He]]]]]; try discriminate; try contradiction.
      apply HasSuffix_spec in He. congruence.
    + split; [discriminate|].
      intros [?|[?|[[_ ?]|[_ [Hb _]]]]]; try discriminate; try contradiction.
      apply HasPrefix_spec in Hb. congruence.
    + split; [discriminate|].
      intros [?|[?|[[_ ?]|[_ [Hb _]]]]]; try discriminate; try contradiction.
      apply HasPrefix_spec in Hb. congruence.
Qed.

(** C1. [isClientCanceled] answers caller-cancelled exactly when the local
    context error is non-nil, or the error carries an RPC status whose code
    is [Canceled] or [DeadlineExceeded], or whose code is [Unavailable] with
    the message ["client disconnected"] or a message that starts with
    ["stream error: "] and ends with ["; CANCEL"]. Every other error, any
    other [Unavailable] message included, is a transport failure. *)
Theorem isClientCanceled_exactly (ctxErr err : option error) :
  isClientCanceled ctxErr err = true
  <-> ctxErr <> None
      \/ exists c msg, rpc_status err = Some (c, msg) /\ cancel_status c msg.
Proof.
  destruct ctxErr as [e|].
  - simpl. split; [intros _; left; discriminate | reflexivity].
  - split.
    + intros H. right.
      destruct (rpc_status err) as [[c msg]|] eqn:Hst.
      * exists c, msg. split; [reflexivity|].
        destruct err as [[]|]; simpl in Hst; try discriminate.
        injection Hst as -> ->. now apply isClientCanceled_status.
      * rewrite isClientCanceled_no_status in H by assumption. discriminate.
    + intros [Hctx | (c & msg & Hst & Hc)]; [congruence|].
      destruct err as [[]|]; simpl in Hst; try discriminate.
      injection Hst as -> ->. now apply isClientCanceled_status.
Qed.

(** The cases listed in the testable properties of the specification. *)
Example classify_context_cancelled :
  isClientCanceled (Some context_Canceled) (Some (OtherError "broken pipe")) = true.
Proof. reflexivity. Qed.

Example classify_canceled_code :
  isClientCanceled None (Some (StatusError Canceled "context canceled")) = true.
Proof. reflexivity. Qed.

Example classify_client_disconnected :
  isClientCanceled None (Some (StatusError Unavailable "client disconnected")) = true.
Proof. reflexivity. Qed.

Example classify_stream_cancel :
  isClientCanceled None
    (Some (StatusError Unavailable "stream error: stream ID 7; CANCEL")) = true.
Proof. reflexivity. Qed.

Example classify_other_unavailable :
  isClientCanceled None (Some (StatusError Unavailable "connection refused")) = false.
Proof. reflexivity. Qed.

(** *** The receive routine *)

Lemma receiveLoop_delivers (pre rest : list Turn) (r : Routine) :
  Forall delivers pre ->
  receiveLoop (pre ++ rest) r
  = receiveLoop rest (mkRoutine (logs r) (ch r ++ sends pre) (closeSends r)).
Proof.
  intros Hpre. revert r. induction Hpre as [|t pre [Hd [Hc [He Hr]]] _ IH]; intros r.
  - simpl. rewrite app_nil_r. now destruct r.
  - simpl. rewrite Hd, Hc, He, Hr. simpl. rewrite IH. simpl.
    now rewrite <- app_assoc.
Qed.

Lemma warnings_log (l : Level) (msg : string) (e : option error) (r : Routine) :
  warnings (log l msg e r)
  = warnings r ++ (if bool_decide (l = WarnLevel) then [mkLog l msg e] else []).
Proof.
  unfold warnings, log. simpl. rewrite filter_app. f_equal.
  destruct l; reflexivity.
Qed.

Lemma warnings_deferred (r : Routine) : warnings (deferred r) = warnings r.
Proof.
  unfold deferred, chanOp. simpl.
  change (warnings (log DebugLevel "closing stream send" None
                      (mkRoutine (logs r) (ch r) (S (closeSends r)))) = warnings r).
  rewrite warnings_log. simpl. now rewrite app_nil_r.
Qed.

Lemma ch_deferred (r : Routine) : ch (deferred r) = ch r ++ [Close].
Proof. reflexivity. Qed.

(** C7. Whatever ends the stream (the caller's context or the client being
    closed, end of stream, a cancellation, a transport failure), the routine
    returns after having closed the consumer's channel exactly once, as the
    last operation on it, every operation before that being the delivery of
    a received cluster snapshot: no final value stands for the error. An
    end-of-stream marker logs no warning; a cancellation or a transport
    failure logs exactly one. *)
Theorem StreamStatus_terminal (pre rest : list Turn) (t : Turn) (c : Cause) :
  Forall delivers pre ->
  terminal t = Some c ->
  exists r,
    receiveRoutine (pre ++ t :: rest) = Ended c r
    /\ ch r = sends pre ++ [Close]
    /\ closeSends r = 1%nat
    /\ (c = CleanEOF \/ c = Stopped -> warnings r = [])
    /\ (c = CallerCancelled \/ c = TransportFailure -> length (warnings r) = 1%nat).
Proof.
  intros Hpre Ht. unfold receiveRoutine. rewrite receiveLoop_delivers by assumption.
  unfold terminal in Ht. simpl.
  destruct (ctxDone t || cliClosed t) eqn:Hstop.
  { injection Ht as <-. eexists; split; [reflexivity|].
    rewrite ch_deferred, warnings_deferred. simpl.
    repeat split; auto; intros [?|?]; discriminate. }
  destruct (recvErr t) as [err|]; [|discriminate].
  unfold errors_Is. destruct (bool_decide (err = io_EOF)).
  { injection Ht as <-. eexists; split; [reflexivity|].
    rewrite ch_deferred, warnings_deferred. simpl.
    repeat split; auto; intros [?|?]; discriminate. }
  destruct (isClientCanceled (streamCtxErr t) (Some err)); injection Ht as <-;
    (eexists; split; [reflexivity|]);
    rewrite ch_deferred, warnings_deferred; simpl;
    repeat split; auto; intros [?|?]; discriminate.
Qed.

Lemma StreamStatus_terminal_witness :
  exists r,
    receiveRoutine
      ([mkTurn false false None None None true]
       ++ mkTurn false false None (Some io_EOF) None true :: [])
    = Ended CleanEOF r
    /\ ch r = sends [mkTurn false false None None None true] ++ [Close]
    /\ closeSends r = 1%nat
    /\ (CleanEOF = CleanEOF \/ CleanEOF = Stopped -> warnings r = [])
    /\ (CleanEOF = CallerCancelled \/ CleanEOF = TransportFailure
        -> length (warnings r) = 1%nat).
Proof.
  apply (StreamStatus_terminal [mkTurn false false None None None true] []
           (mkTurn false false None (Some io_EOF) None true) CleanEOF).
  - repeat constructor.
  - reflexivity.
Defined.

(** The routine only ends on a terminal turn: a run that ended has the
    shape the theorem above describes. *)
Lemma receiveLoop_ended (turns : list Turn) (r r' : Routine) (c : Cause) :
  receiveLoop turns r = Ended c r' ->
  exists pre t rest,
    turns = pre ++ t :: rest /\ Forall delivers pre /\ terminal t = Some c.
Proof.
  revert r. induction turns as [|t turns IH]; intros r H; simpl in H; [discriminate|].
  unfold terminal at 1.
  destruct (ctxDone t || cliClosed t) eqn:Hstop.
  { injection H as <- _. exists [], t, turns. unfold terminal. rewrite Hstop. auto. }
  destruct (recvErr t) as [err|] eqn:Herr.
  - exists [], t, turns. unfold terminal. rewrite Hstop, Herr.
    unfold errors_Is in H. split; [reflexivity|]. split; [constructor|].
    destruct (bool_decide (err = io_EOF)); [now injection H as <- _|].
    destruct (isClientCanceled (streamCtxErr t) (Some err)); now injection H as <- _.
  - destruct (chanRoom t) eqn:Hroom; [|discriminate].
    destruct (IH _ H) as (pre & t' & rest & -> & Hpre & Ht').
    exists (t :: pre), t', rest. split; [reflexivity|]. split; [|assumption].
    constructor; [|assumption].
    apply orb_false_iff in Hstop as [? ?]. repeat split; assumption.
Qed.

End ClientFacts.

(** ** The server: the orchestrator *)

Section ServerFacts.

Import Server ServerSpec.

Variable d : Deps.

(** *** What a call leaves alone *)

Lemma fillAll_frame (nodes : list (string * Node)) (lc : localNetwork) :
  let r := fillAll d nodes lc in
  history (fst r) = history lc /\ donec (fst r) = donec lc /\ errc (fst r) = errc lc
  /\ readyc (fst r) = readyc lc /\ readycCloseOnce (fst r) = readycCloseOnce lc
  /\ stopc (fst r) = stopc lc /\ nw (fst r) = nw lc /\ nodeNames (fst r) = nodeNames lc
  /\ snd r <> Blocked.
Proof.
  revert lc. induction nodes as [|[name node] rest IH]; intros lc; simpl.
  - repeat split; discriminate.
  - destruct (nodeInfos lc !! name); simpl.
    + specialize (IH (writeClient name node (writeId d name node (writeUri name node lc)))).
      simpl in IH. exact IH.
    + repeat split; discriminate.
Qed.

Lemma closeReadyc_frame (lc : localNetwork) :
  let r := closeReadyc lc in
  signalling (fst r) = signalling lc /\ snd r <> Blocked
  /\ nodeInfos (fst r) = nodeInfos lc /\ nodeNames (fst r) = nodeNames lc.
Proof.
  unfold closeReadyc, close, signalling, occurrences, errors_sent.
  destruct (done (readycCloseOnce lc)); simpl.
  - repeat split; discriminate.
  - destruct (closed (readyc lc)); simpl.
    + repeat split; discriminate.
    + rewrite !List.filter_app. simpl. rewrite !app_nil_r.
      repeat split; discriminate.
Qed.

Lemma afterSelect_frame (n : Network) (pick : Case) (lc : localNetwork) :
  let r := afterSelect d n pick lc in
  signalling (fst r) = signalling lc /\ snd r <> Blocked.
Proof.
  destruct pick as [| |[err|]]; simpl; try (split; [reflexivity | discriminate]).
  destruct (GetAllNodes n) as [nodes [err|]]; simpl; [split; [reflexivity | discriminate]|].
  pose proof (fillAll_frame nodes (set_nodes nodes lc)) as Hf. simpl in Hf.
  destruct (fillAll d nodes (set_nodes nodes lc)) as [lc' [[]|w|]] eqn:Hfill; simpl in *.
  - pose proof (closeReadyc_frame lc') as Hc. simpl in Hc.
    destruct (closeReadyc lc') as [lc'' [[]|w|]]; simpl in *.
    + destruct Hc as [-> _]. split; [|discriminate].
      unfold signalling, occurrences, errors_sent.
      destruct Hf as (-> & -> & -> & _). reflexivity.
    + destruct Hc as [-> _]. split; [|discriminate].
      unfold signalling, occurrences, errors_sent.
      destruct Hf as (-> & -> & -> & _). reflexivity.
    + tauto.
  - split; [|discriminate]. unfold signalling, occurrences, errors_sent.
    destruct Hf as (-> & -> & -> & _). reflexivity.
  - tauto.
Qed.

(** *** The [select] always has a case to take *)

Lemma select_ready_nonempty (sg : Signals) (lc : localNetwork) (n : Network) :
  select_ready sg lc n <> [].
Proof.
  unfold select_ready, fire, earliest, health_ready.
  destruct (stop_ready sg lc) as [ts|] eqn:Hs;
  destruct (Healthy n) as [[th e]|] eqn:Hh; simpl;
  repeat match goal with
         | |- context [(?a <=? ?b)%N] => destruct (N.leb_spec a b)
         end; simpl; try discriminate; lia.
Qed.

Lemma waitForHealthy_nonempty (sg : Signals) (lc : localNetwork) :
  waitForHealthy d sg lc <> [].
Proof.
  unfold waitForHealthy. destruct (nw lc) as [n|]; [|discriminate].
  pose proof (select_ready_nonempty sg lc n).
  destruct (select_ready sg lc n); [contradiction | discriminate].
Qed.

Lemma waitForHealthy_frame (sg : Signals) (lc : localNetwork) :
  Forall (fun r => signalling (fst r) = signalling lc /\ snd r <> Blocked)
         (waitForHealthy d sg lc).
Proof.
  unfold waitForHealthy. destruct (nw lc) as [n|].
  - apply Forall_forall. intros r Hr. apply list_elem_of_fmap in Hr as (pick & -> & _).
    apply afterSelect_frame.
  - constructor; [|constructor]. split; [reflexivity | discriminate].
Qed.

(** *** A network fresh from [newNetwork] *)

Lemma newNetwork_fresh (execPath rootDataDir whitelistedSubnets logLevel : string)
    (lc : localNetwork) :
  newNetwork d execPath rootDataDir whitelistedSubnets logLevel = Ret (inl lc) -> fresh lc.
Proof.
  unfold newNetwork. destruct (DefaultConfig d); [discriminate|].
  destruct (Make d); [discriminate|].
  destruct (configure _ _ _ _ _ _ _ _ _); try discriminate.
  intros [= <-]. repeat split.
Qed.

Lemma deferred_report_signalled (err : error) (lc : localNetwork) :
  signalling lc = (make unit 0, make error 1, 0%nat, 0%nat) ->
  signalled (deferred (report err lc)).
Proof.
  unfold signalling. intros [= Hd He Hc Hs].
  unfold report, send. rewrite He. simpl.
  unfold deferred, close. simpl. rewrite Hd. simpl.
  unfold signalled, occurrences, errors_sent in *. simpl.
  rewrite !List.filter_app, !length_app in *. simpl.
  repeat split; try discriminate; lia.
Qed.

Lemma deferred_quiet_signalled (lc : localNetwork) (o : outcome unit) :
  o <> Blocked ->
  signalling lc = (make unit 0, make error 1, 0%nat, 0%nat) ->
  signalled (deferred (lc, o)).
Proof.
  unfold signalling. intros Ho [= Hd He Hc Hs].
  unfold deferred, close. rewrite Hd. simpl.
  destruct o; try contradiction;
    unfold signalled, occurrences, errors_sent in *; simpl;
    rewrite !List.filter_app, !length_app in *; simpl; rewrite He; simpl;
    repeat split; auto; try discriminate; lia.
Qed.

(** A launch that failed, on an orchestrator that has sent nothing yet. *)
Lemma start_failure_run (sg : Signals) (lc : localNetwork) (err : error) :
  NewNetwork d (cfg lc) = inr err ->
  errc_ready lc ->
  closed (donec lc) = false ->
  exists lc',
    start d sg lc = [(lc', Ret tt)]
    /\ buf (errc lc') = [err]
    /\ closed (donec lc') = true
    /\ history lc' = history lc ++ [SendErrc err; CloseDonec].
Proof.
  intros Hlaunch (Hec & Heb & Hcap) Hdc.
  unfold start. rewrite Hlaunch. unfold report, send. rewrite Hec, Heb, Hcap. simpl.
  unfold close. rewrite Hdc. simpl. eexists. split; [reflexivity|]. simpl.
  rewrite <- app_assoc. repeat split.
Qed.

(** The runs of [start] after a launch that succeeded, one for each way
    the health wait can end. *)
Lemma start_wait_runs (sg : Signals) (lc : localNetwork) (n : Network) :
  NewNetwork d (cfg lc) = inl n ->
  errc_ready lc ->
  closed (donec lc) = false ->
  Forall2 start_of_wait (waitForHealthy d sg (set_nw (Some n) lc)) (start d sg lc).
Proof.
  intros Hlaunch (Hec & Heb & Hcap) Hdc.
  unfold start. rewrite Hlaunch. apply Forall2_fmap_r, Forall_Forall2_diag.
  eapply Forall_impl; [apply waitForHealthy_frame|].
  intros [lc1 o] [Hsig Hnb]. unfold signalling in Hsig. simpl in Hsig, Hnb.
  injection Hsig as Hd1 He1 _ _.
  unfold start_of_wait, compose.
  destruct o as [[err|]|w|]; try contradiction; cbv beta iota; cbn [fst snd].
  - unfold report, send. rewrite He1, Hec, Heb, Hcap. simpl.
    unfold close. simpl. rewrite Hd1, Hdc. simpl. repeat split.
  - unfold deferred, close. rewrite Hd1, Hdc. simpl. rewrite He1, Heb. repeat split.
  - unfold deferred, close. rewrite Hd1, Hdc. simpl. rewrite He1, Heb. repeat split.
Qed.

(** C9. On a network as [newNetwork] built it, every run of [start]
    (launch failure, failed health wait, success, even a panic of the health
    wait) ends: it is never parked on the error channel, it closes [donec]
    exactly once, and it sends at most one error, which the capacity-1
    buffer of [errc] holds for the waiter. A failure is reported: when the
    launch fails, [start] returns with exactly that error in [errc], sent
    before [donec] is closed; when the health wait returns an error, [start]
    returns with exactly that error in [errc]; when the wait succeeds, [errc]
    stays empty; [donec] is closed in each case. *)
Theorem start_signals_once (execPath rootDataDir whitelistedSubnets logLevel : string)
    (sg : Signals) (lc : localNetwork) :
  newNetwork d execPath rootDataDir whitelistedSubnets logLevel = Ret (inl lc) ->
  start d sg lc <> []
  /\ Forall signalled (start d sg lc)
  /\ (forall err, NewNetwork d (cfg lc) = inr err ->
        exists lc',
          start d sg lc = [(lc', Ret tt)]
          /\ buf (errc lc') = [err]
          /\ closed (donec lc') = true
          /\ history lc' = [SendErrc err; CloseDonec])
  /\ (forall n, NewNetwork d (cfg lc) = inl n ->
        Forall2 start_of_wait (waitForHealthy d sg (set_nw (Some n) lc)) (start d sg lc)).
Proof.
  intros Hnew. apply newNetwork_fresh in Hnew.
  destruct Hnew as (Hnw & Hnodes & Hrc & Hro & Hsc & Hdc & Hec & Hso & Hh).
  assert (Hsig : forall n, signalling (set_nw (Some n) lc)
                           = (make unit 0, make error 1, 0%nat, 0%nat)).
  { intros n. unfold signalling, occurrences, errors_sent. simpl.
    now rewrite Hdc, Hec, Hh. }
  assert (Hready : errc_ready lc) by (unfold errc_ready; rewrite Hec; repeat split).
  assert (Hopen : closed (donec lc) = false) by (rewrite Hdc; reflexivity).
  assert (Hruns : start d sg lc <> [] /\ Forall signalled (start d sg lc)).
  { unfold start. destruct (NewNetwork d (cfg lc)) as [n|err].
    - split.
      + pose proof (waitForHealthy_nonempty sg (set_nw (Some n) lc)).
        destruct (waitForHealthy d sg (set_nw (Some n) lc)); [contradiction | discriminate].
      + apply Forall_fmap. eapply Forall_impl; [apply waitForHealthy_frame|].
        intros [lc' o] [Hfr Hnb]. simpl in *. rewrite Hsig in Hfr.
        destruct o as [[err|]|w|]; try contradiction.
        * now apply deferred_report_signalled.
        * apply deferred_quiet_signalled; [discriminate | assumption].
        * apply deferred_quiet_signalled; [discriminate | assumption].
    - split; [discriminate|]. constructor; [|constructor].
      apply deferred_report_signalled.
      unfold signalling, occurrences, errors_sent. now rewrite Hdc, Hec, Hh. }
  destruct Hruns as [Hne Hall]. split; [assumption|]. split; [assumption|]. split.
  - intros err Hlaunch.
    destruct (start_failure_run sg lc err Hlaunch Hready Hopen)
      as (lc' & Hrun & Hbuf & Hdone & Hhist).
    exists lc'. rewrite Hh in Hhist. auto.
  - intros n Hlaunch. exact (start_wait_runs sg lc n Hlaunch Hready Hopen).
Qed.

(** *** The health wait: deadline and stop *)


(** C3, as the code has it. When the stop request comes first and the
    [select] is evaluated before the deadline and before the collaborator
    has reported (so the goroutine takes the stop case at once, or is parked
    and woken by it), [waitForHealthy] returns [errAborted] and nothing
    else. The [select] has no priority among cases that are ready together. *)
Theorem waitForHealthy_aborted (sg : Signals) (lc : localNetwork) (n : Network) :
  nw lc = Some n ->
  stop_first sg lc n ->
  polled_early sg n ->
  waitForHealthy d sg lc = [(lc, Ret (Some errAborted))].
Proof.
  intros Hnw (ts & Hts & Hdead & Hhealth) (Hpoll & Hpollh).
  unfold waitForHealthy. rewrite Hnw.
  unfold select_ready, fire, earliest, health_ready. rewrite Hts. simpl.
  destruct (Healthy n) as [[th e]|] eqn:Hh; simpl.
  - specialize (Hhealth th e eq_refl). specialize (Hpollh th e eq_refl).
    repeat match goal with
           | |- context [(?a <=? ?b)%N] => destruct (N.leb_spec a b)
           end; simpl; try reflexivity; lia.
  - repeat match goal with
           | |- context [(?a <=? ?b)%N] => destruct (N.leb_spec a b)
           end; simpl; try reflexivity; lia.
Qed.

(** *** The registry *)

Lemma decimal_inj (a b : nat) : decimal a = decimal b -> a = b.
Proof.
  unfold decimal. intros H. apply DecimalNat.Unsigned.to_uint_inj.
  assert (Some (Nat.to_uint a) = Some (Nat.to_uint b)) as [= ?]; [|assumption].
  rewrite <- !NilEmpty.usu. now rewrite H.
Qed.

Lemma nodeName_inj (i j : nat) : nodeName i = nodeName j -> i = j.
Proof.
  unfold nodeName. intros H. simpl in H. injection H as H.
  apply decimal_inj in H. lia.
Qed.

Lemma nodeNames_NoDup (i len : nat) : NoDup (map nodeName (seq i len)).
Proof.
  apply NoDup_fmap_2; [|apply NoDup_seq].
  intros a b. apply nodeName_inj.
Qed.

(** What the loop of [newNetwork] builds: the names in order, and a blank
    record under each of them. *)
Lemma configure_built (execPath rootDataDir whitelistedSubnets logLevel : string)
    (total : nat) (ncs : list node_Config) (i : nat) (b b' : Built) :
  configure d execPath rootDataDir whitelistedSubnets logLevel total i ncs b = Ret b' ->
  builtNames b' = builtNames b ++ map nodeName (seq i (length ncs))
  /\ dom (builtInfos b') = dom (builtInfos b) ∪ list_to_set (map nodeName (seq i (length ncs)))
  /\ forall name info, builtInfos b' !! name = Some info ->
       builtInfos b !! name = Some info \/ blank info.
Proof.
  revert i b. induction ncs as [|nc rest IH]; intros i b H; simpl in H.
  - injection H as <-. simpl. rewrite app_nil_r. split; [reflexivity|].
    split; [set_solver | auto].
  - destruct (colors !! (i mod total)%nat) as [col|]; [|discriminate].
    apply IH in H as (Hn & Hd & Hi). simpl in *. split; [|split].
    + rewrite Hn, <- app_assoc. reflexivity.
    + rewrite Hd, dom_insert_L. set_solver.
    + intros name info Hl. destruct (Hi name info Hl) as [Hin|Hb]; [|now right].
      destruct (decide (nodeName i = name)) as [<-|Hne].
      * rewrite lookup_insert_eq in Hin. injection Hin as <-. right. split; reflexivity.
      * rewrite lookup_insert_ne in Hin by assumption. now left.
Qed.

Lemma newNetwork_registry (execPath rootDataDir whitelistedSubnets logLevel : string)
    (lc : localNetwork) :
  newNetwork d execPath rootDataDir whitelistedSubnets logLevel = Ret (inl lc) ->
  nodeNames lc = map nodeName (seq 0 (length (NodeConfigs (NewDefaultConfig d execPath))))
  /\ dom (nodeInfos lc) = list_to_set (nodeNames lc)
  /\ forall name info, nodeInfos lc !! name = Some info -> blank info.
Proof.
  unfold newNetwork. destruct (DefaultConfig d); [discriminate|].
  destruct (Make d); [discriminate|].
  destruct (configure _ _ _ _ _ _ _ _ _) as [b| |] eqn:Hc; try discriminate.
  intros [= <-]. simpl. apply configure_built in Hc as (Hn & Hd & Hi). simpl in *.
  split; [assumption|]. split.
  - rewrite Hd, Hn. set_solver.
  - intros name info Hl. destruct (Hi name info Hl) as [Hin|Hb]; [|assumption].
    rewrite lookup_empty in Hin. discriminate.
Qed.

Lemma uriOf_nonempty (node : Node) : uriOf node <> "".
Proof. unfold uriOf. simpl. discriminate. Qed.

Lemma nodeIDOf_nonempty (node : Node) : NodeIDPrefix d <> "" -> nodeIDOf d node <> "".
Proof. unfold nodeIDOf. destruct (NodeIDPrefix d); [contradiction | discriminate]. Qed.

(** One turn of the loop body, on the registry. *)
Definition fillOne (name : string) (node : Node) (lc : localNetwork) : localNetwork :=
  writeClient name node (writeId d name node (writeUri name node lc)).

Lemma fillOne_lookup (name : string) (node : Node) (lc : localNetwork) (k : string) :
  nodeInfos (fillOne name node lc) !! k
  = if decide (name = k)
    then (fun i => setId (nodeIDOf d node) (setUri (uriOf node) i)) <$> nodeInfos lc !! name
    else nodeInfos lc !! k.
Proof.
  unfold fillOne, writeClient, writeId, writeUri. simpl.
  destruct (decide (name = k)) as [<-|Hne].
  - rewrite !lookup_alter_eq. destruct (nodeInfos lc !! name); reflexivity.
  - now rewrite !lookup_alter_ne by assumption.
Qed.

Lemma fillOne_filled (node : Node) (i : rpcpb.NodeInfo) :
  NodeIDPrefix d <> "" -> filled (setId (nodeIDOf d node) (setUri (uriOf node) i)).
Proof. intros Hp. split; simpl; [apply uriOf_nonempty | now apply nodeIDOf_nonempty]. Qed.

(** The loop, on the registry: a record is left as it was or is filled; the
    names stay the same; when the loop completes, every name it visited has
    a filled record. *)
Lemma fillAll_registry (nodes : list (string * Node)) (lc : localNetwork) :
  NodeIDPrefix d <> "" ->
  let r := fillAll d nodes lc in
  dom (nodeInfos (fst r)) = dom (nodeInfos lc)
  /\ (forall k i', nodeInfos (fst r) !! k = Some i' ->
        nodeInfos lc !! k = Some i' \/ filled i')
  /\ (snd r = Ret tt -> populated nodes.*1 (fst r)).
Proof.
  intros Hp. revert lc. induction nodes as [|[name node] rest IH]; intros lc; simpl.
  - split; [reflexivity|]. split; [auto|]. intros _ k Hk. inversion Hk.
  - destruct (nodeInfos lc !! name) as [i0|] eqn:Hname; simpl.
    + specialize (IH (fillOne name node lc)). cbv zeta in IH.
      change (writeClient name node (writeId d name node (writeUri name node lc)))
        with (fillOne name node lc).
      destruct IH as (Hd & Hi & Hs). split; [|split].
      * rewrite Hd. unfold fillOne, writeClient, writeId, writeUri. simpl.
        now rewrite !dom_alter_L.
      * intros k i' Hl. destruct (Hi k i' Hl) as [Hin|Hf]; [|now right].
        rewrite fillOne_lookup in Hin. destruct (decide (name = k)) as [<-|Hne].
        -- rewrite Hname in Hin. injection Hin as <-. right. now apply fillOne_filled.
        -- now left.
      * intros Hret k Hk. apply elem_of_cons in Hk as [->|Hk]; [|now apply Hs].
        assert (is_Some (nodeInfos (fst (fillAll d rest (fillOne name node lc))) !! name))
          as [i' Hi'].
        { apply elem_of_dom. rewrite Hd. apply elem_of_dom.
          rewrite fillOne_lookup. rewrite decide_True by reflexivity.
          rewrite Hname. eauto. }
        exists i'. split; [assumption|].
        destruct (Hi name i' Hi') as [Hin|Hf]; [|assumption].
        rewrite fillOne_lookup, decide_True, Hname in Hin by reflexivity.
        injection Hin as <-. now apply fillOne_filled.
    + split; [reflexivity|]. split; [auto | discriminate].
Qed.


Lemma deferred_registry (lc : localNetwork) (o : outcome unit) :
  nodeInfos (fst (deferred (lc, o))) = nodeInfos lc
  /\ nodeNames (fst (deferred (lc, o))) = nodeNames lc.
Proof.
  unfold deferred, close.
  destruct o; destruct (closed (donec lc)); simpl; split; reflexivity.
Qed.


(** [stop] does not touch the registry. *)
Lemma stop_step_registry (lc lc' : localNetwork) (pc pc' : Pc) :
  stop_step lc pc = Some (lc', pc') -> nodeInfos lc' = nodeInfos lc.
Proof.
  intros H. destruct pc; simpl in H; unfold close in H;
    repeat match type of H with
           | context [if ?b then _ else _] => destruct b
           | context [match nw ?x with _ => _ end] => destruct (nw x)
           end; try discriminate; injection H as <- _; reflexivity.
Qed.

Lemma run_stop_registry (fuel : nat) (lc : localNetwork) (pc : Pc) :
  nodeInfos (fst (run_stop fuel lc pc)) = nodeInfos lc.
Proof.
  revert lc pc. induction fuel as [|fuel IH]; intros lc pc.
  - destruct pc; reflexivity.
  - assert (nodeInfos (fst (match stop_step lc pc with
                            | Some (lc', pc') => run_stop fuel lc' pc'
                            | None => (lc, Blocked)
                            end)) = nodeInfos lc) as Hgen.
    { destruct (stop_step lc pc) as [[lc' pc']|] eqn:Hs; [|reflexivity].
      rewrite IH. exact (stop_step_registry _ _ _ _ Hs). }
    destruct pc; try reflexivity; exact Hgen.
Qed.

(** C8. At the boundary of every operation of the orchestrator a record has
    both fields empty or both set: [newNetwork] builds blank records, and
    every way [waitForHealthy], [start] and [stop] can end (error, panic and
    parked runs included) leaves each record as it was or fills both fields. *)
Theorem registry_never_half_initialized :
  NodeIDPrefix d <> "" ->
  (forall execPath rootDataDir whitelistedSubnets logLevel lc,
      newNetwork d execPath rootDataDir whitelistedSubnets logLevel = Ret (inl lc) ->
      consistent lc)
  /\ (forall sg lc, consistent lc ->
        Forall (fun r => consistent (fst r)) (waitForHealthy d sg lc))
  /\ (forall sg lc, consistent lc ->
        Forall (fun r => consistent (fst r)) (start d sg lc))
  /\ (forall lc, consistent lc -> consistent (fst (stop lc))).
Proof.
  intros Hp.
  assert (Hwait : forall sg lc, consistent lc ->
            Forall (fun r => consistent (fst r)) (waitForHealthy d sg lc)).
  { intros sg lc Hc. unfold waitForHealthy. destruct (nw lc) as [n|].
    - apply Forall_fmap, Forall_forall. intros pick _. simpl.
      destruct pick as [| |[err|]]; simpl; try assumption.
      destruct (GetAllNodes n) as [nodes [err|]]; simpl; [assumption|].
      pose proof (fillAll_registry nodes (set_nodes nodes lc) Hp) as (_ & Hi & _).
      assert (consistent (fst (fillAll d nodes (set_nodes nodes lc)))) as Hc1.
      { intros name i Hl. destruct (Hi name i Hl) as [Hin|Hf]; [|now right].
        exact (Hc name i Hin). }
      destruct (fillAll d nodes (set_nodes nodes lc)) as [lc1 [[]|w|]]; simpl in *;
        try assumption.
      pose proof (closeReadyc_frame lc1) as (_ & _ & Hn & _).
      destruct (closeReadyc lc1) as [lc2 [[]|w|]]; simpl in *;
        intros name i Hl; rewrite Hn in Hl; exact (Hc1 name i Hl).
    - constructor; [assumption | constructor]. }
  assert (Hdef : forall lc o, consistent lc -> consistent (fst (deferred (lc, o)))).
  { intros lc o Hc name i Hl.
    destruct (deferred_registry lc o) as [Hdi _]. rewrite Hdi in Hl. exact (Hc name i Hl). }
  assert (Hrep : forall err lc, consistent lc -> consistent (fst (report err lc))).
  { intros err lc Hc. unfold report, send.
    destruct (closed (errc lc)); [assumption|].
    destruct (length (buf (errc lc)) <? cap (errc lc))%nat; assumption. }
  split; [|split; [exact Hwait | split]].
  - intros e r w l lc Hnew name i Hl.
    apply newNetwork_registry in Hnew as (_ & _ & Hb). left. exact (Hb name i Hl).
  - intros sg lc Hc. unfold start. destruct (NewNetwork d (cfg lc)) as [n|err].
    + apply Forall_fmap. eapply Forall_impl; [apply (Hwait sg (set_nw (Some n) lc)); exact Hc|].
      intros [lc1 o] Hc1. cbn [fst snd] in Hc1. unfold compose. cbv beta iota.
      destruct o as [[err|]|w|]; cbv iota.
      * specialize (Hrep err lc1 Hc1).
        destruct (report err lc1) as [lc2 o2]. apply Hdef, Hrep.
      * apply Hdef, Hc1.
      * apply Hdef, Hc1.
      * exact Hc1.
    + constructor; [|constructor].
      specialize (Hrep err lc Hc). destruct (report err lc) as [lc2 o2]. apply Hdef, Hrep.
  - intros lc Hc. unfold stop.
    intros name i Hl. rewrite run_stop_registry in Hl. exact (Hc name i Hl).
Qed.

(** *** [stop]: the execute-once guard *)

Lemma occurrences_record (e e' : Event) (lc : localNetwork) :
  occurrences e (record e' lc)
  = (occurrences e lc + Nat.b2n (bool_decide (e' = e)))%nat.
Proof.
  unfold occurrences, record. simpl. rewrite List.filter_app, length_app. simpl.
  destruct (bool_decide (e' = e)); reflexivity.
Qed.

Lemma population_insert (q pc pc' : Pc) (pcs : list Pc) (i : nat) :
  pcs !! i = Some pc ->
  (population q (<[i := pc']> pcs) + Nat.b2n (bool_decide (pc = q))
   = population q pcs + Nat.b2n (bool_decide (pc' = q)))%nat.
Proof.
  unfold population. revert i. induction pcs as [|p pcs IH]; intros i Hi; [discriminate|].
  destruct i as [|i]; simpl in *.
  - injection Hi as ->.
    destruct (bool_decide (pc = q)), (bool_decide (pc' = q)); simpl; lia.
  - specialize (IH i Hi). destruct (bool_decide (p = q)); simpl; lia.
Qed.

Lemma population_initial (q : Pc) (pcs : list Pc) :
  Forall (fun pc => pc = AtDo) pcs -> q <> AtDo -> population q pcs = 0%nat.
Proof.
  unfold population. intros Hall Hq. induction Hall as [|pc pcs -> _ IH]; [reflexivity|].
  simpl. rewrite bool_decide_false by congruence. exact IH.
Qed.

Lemma population_lookup (q : Pc) (pcs : list Pc) (i : nat) :
  pcs !! i = Some q -> (1 <= population q pcs)%nat.
Proof.
  unfold population. revert i. induction pcs as [|p pcs IH]; intros i Hi; [discriminate|].
  destruct i as [|i]; simpl in *.
  - injection Hi as ->. rewrite bool_decide_true by reflexivity. simpl. lia.
  - specialize (IH i Hi). destruct (bool_decide (p = q)); simpl; lia.
Qed.

Lemma initial_guarded (s : System) : initial s -> guarded s.
Proof.
  intros (Hnw & Honce & Hstopc & Hocc & Hall). unfold guarded. cbv zeta.
  rewrite !(population_initial _ _ Hall) by discriminate.
  rewrite Honce, Hstopc, Hocc. simpl.
  repeat split; auto; lia.
Qed.

(** The counts of all program points after a caller moved. *)
Ltac recount Hlook pc' :=
  pose proof (population_insert AtDo _ pc' _ _ Hlook);
  pose proof (population_insert AtLock _ pc' _ _ Hlook);
  pose proof (population_insert AtCheck _ pc' _ _ Hlook);
  pose proof (population_insert AtCloseStopc _ pc' _ _ Hlook);
  pose proof (population_insert AtNwStop _ pc' _ _ Hlook);
  pose proof (population_insert AtDonec _ pc' _ _ Hlook);
  pose proof (population_insert AtOutf _ pc' _ _ Hlook);
  pose proof (population_insert Returned _ pc' _ _ Hlook);
  pose proof (population_insert Panicked _ pc' _ _ Hlook);
  pose proof (population_lookup _ _ _ Hlook).

Lemma step_guarded (s s' : System) : step s s' -> guarded s -> guarded s'.
Proof.
  intros Hstep. destruct Hstep as [s i pc pc' lc' Hlook Hst | s ch Hclose];
    destruct s as [lc pcs]; unfold guarded; cbn [net callers] in *; cbv zeta;
    intros (Hnw & Hm & Hpan & Hrun & Hocc & Hsc & Hout & Hdd & Hret).
  - destruct (nw lc) as [n|] eqn:Hn; [clear Hnw | contradiction].
    destruct (done (stopOnce lc)) eqn:Hd, (m (stopOnce lc)) eqn:Hmm,
             (closed (stopc lc)) eqn:Hs, (closed (donec lc)) eqn:Hc;
      destruct pc; simpl in Hst; unfold close in Hst;
      rewrite ?Hd, ?Hmm, ?Hs, ?Hc, ?Hn in Hst; try discriminate;
      injection Hst as <- <-;
      match goal with |- context [<[_ := ?pc']> _] => recount Hlook pc' end;
      rewrite ?occurrences_record; unfold occurrences in *;
      cbn [nw stopOnce stopc donec done m closed set_stopOnce set_stopc record
           set_history unwind history] in *;
      rewrite ?Hd, ?Hmm, ?Hs, ?Hc, ?Hn in *;
      simpl Nat.b2n in *;
      (split; [discriminate|]); repeat split; lia.
  - unfold close in Hclose. destruct (closed (donec lc)) eqn:Hc; [discriminate|].
    injection Hclose as <-. rewrite occurrences_record.
    rewrite bool_decide_false by discriminate. unfold occurrences in *.
    cbn [nw stopOnce stopc donec closed set_donec record set_history history] in *.
    rewrite ?Hc in *.
    destruct (done (stopOnce lc)); simpl in *; repeat split; try assumption; lia.
Qed.

Lemma steps_guarded (s s' : System) : steps s s' -> guarded s -> guarded s'.
Proof. induction 1 as [|s1 s2 s3 Hstep _ IH]; eauto using step_guarded. Qed.




(** *** The registry and the ready signal *)

Lemma fillStates_readyc (nodes : list (string * Node)) (lc s : localNetwork) :
  s ∈ fillStates d nodes lc -> readyc s = readyc lc.
Proof.
  revert lc. induction nodes as [|[name node] rest IH]; intros lc Hs; simpl in Hs.
  - inversion Hs.
  - destruct (nodeInfos lc !! name); [|inversion Hs].
    repeat (apply elem_of_cons in Hs as [->|Hs]; [reflexivity|]).
    rewrite (IH _ Hs). reflexivity.
Qed.

(** C4, as the code has it. The fields are written one at a time, with no
    lock, and [readyc] is closed after the last write. On an orchestrator
    whose ready signal is still open: a store in which [readyc] is closed
    holds a filled record for every node of the collaborator's map, and the
    store a successful wait returns is the last one, with [readyc] closed. *)
Theorem readyc_publishes (n : Network) (lc : localNetwork) :
  NodeIDPrefix d <> "" ->
  closed (readyc lc) = false ->
  done (readycCloseOnce lc) = false ->
  (forall s, s ∈ publishStates d n lc -> closed (readyc s) = true ->
     populated (fst (GetAllNodes n)).*1 s)
  /\ (forall lc', afterSelect d n (HealthCase None) lc = (lc', Ret None) ->
        snd (GetAllNodes n) = None ->
        last (publishStates d n lc) = Some lc' /\ closed (readyc lc') = true).
Proof.
  intros Hp Hopen Honce.
  set (nodes := fst (GetAllNodes n)).
  pose proof (fillAll_frame nodes (set_nodes nodes lc)) as Hf. cbv zeta in Hf.
  pose proof (fillAll_registry nodes (set_nodes nodes lc) Hp) as Hr. cbv zeta in Hr.
  destruct Hf as (_ & _ & _ & Hrc & Hro & _).
  destruct Hr as (_ & _ & Hpop).
  split.
  - intros s Hs Hclosed. unfold publishStates in Hs. fold nodes in Hs.
    apply elem_of_cons in Hs as [->|Hs]; [congruence|].
    apply elem_of_cons in Hs as [->|Hs]; [simpl in Hclosed; congruence|].
    apply elem_of_app in Hs as [Hs|Hs].
    + apply fillStates_readyc in Hs. simpl in Hs. congruence.
    + destruct (fillAll d nodes (set_nodes nodes lc)) as [lc1 [[]|w|]];
        try (inversion Hs; fail).
      apply list_elem_of_singleton in Hs as ->.
      pose proof (closeReadyc_frame lc1) as (_ & _ & Hn & _).
      intros name Hname. rewrite Hn. exact (Hpop eq_refl name Hname).
  - intros lc' Hrun Herr. unfold publishStates. fold nodes.
    simpl in Hrun. destruct (GetAllNodes n) as [nodes' [err|]] eqn:Hg; [discriminate|].
    subst nodes. simpl in *.
    destruct (fillAll d nodes' (set_nodes nodes' lc)) as [lc1 [[]|w|]]; try discriminate.
    assert (closeReadyc lc1 = (lc', Ret tt)) as Hcr.
    { destruct (closeReadyc lc1) as [lc2 [[]|w|]]; try discriminate. congruence. }
    rewrite Hcr. simpl. split.
    + rewrite !app_comm_cons. apply last_snoc.
    + unfold closeReadyc, close in Hcr. simpl in Hrc, Hro.
      rewrite Hro, Honce, Hrc, Hopen in Hcr. injection Hcr as <-. reflexivity.
Qed.

End ServerFacts.

(* ===================================================================== *)
(** * The concrete cluster                                                *)
(* ===================================================================== *)

Section ScenarioFacts.

Import GoStrings Client ClientSpec Server ServerSpec Scenario.

Lemma built_created : built deps = Some created.
Proof. vm_compute. reflexivity. Qed.

Lemma newNetwork_created :
  newNetwork deps "/usr/local/bin/node" "/tmp/network-runner" "" "" = Ret (inl created).
Proof. vm_compute. reflexivity. Qed.

Lemma created_fresh : fresh created.
Proof. exact (newNetwork_fresh deps _ _ _ _ _ newNetwork_created). Qed.

Lemma isClientCanceled_exactly_witness :
  isClientCanceled None
    (Some (StatusError Unavailable "stream error: stream ID 7; CANCEL")) = true.
Proof.
  apply (isClientCanceled_exactly None
           (Some (StatusError Unavailable "stream error: stream ID 7; CANCEL"))).
  right. exists Unavailable, "stream error: stream ID 7; CANCEL".
  split; [reflexivity|]. right; right; right. split; [reflexivity|].
  split; [exists "stream ID 7; CANCEL" | exists "stream error: stream ID 7"]; reflexivity.
Defined.

(** Both the stop request and the health report are ready when the
    [select] is evaluated: the health case can be taken, and the wait
    succeeds although the stop request came first. *)
Lemma stop_without_priority : ~ stop_has_priority deps racing prompt promptNetwork.
Proof.
  intros H. specialize (H eq_refl).
  assert (stop_first racing prompt promptNetwork) as Hfirst.
  { exists 200%N. split; [reflexivity|]. split; [reflexivity|].
    intros th e [= <- _]. reflexivity. }
  specialize (H Hfirst).
  assert (afterSelect deps promptNetwork (HealthCase None) prompt
          ∈ waitForHealthy deps racing prompt) as Hin.
  { unfold waitForHealthy. cbn [nw prompt set_nw]. apply list_elem_of_fmap.
    exists (HealthCase None). split; [reflexivity|].
    assert (select_ready racing prompt promptNetwork = [StopCase; HealthCase None]) as ->
      by (vm_compute; reflexivity).
    apply elem_of_cons. right. apply elem_of_cons. now left. }
  rewrite Forall_forall in H. specialize (H _ Hin).
  assert (snd (afterSelect deps promptNetwork (HealthCase None) prompt) = Ret None) as Hok
    by (vm_compute; reflexivity).
  rewrite Hok in H. discriminate.
Qed.

Lemma waitForHealthy_aborted_witness :
  nw launched = Some healthyNetwork
  /\ stop_first stopping launched healthyNetwork
  /\ polled_early stopping healthyNetwork
  /\ waitForHealthy deps stopping launched = [(launched, Ret (Some errAborted))].
Proof.
  assert (stop_first stopping launched healthyNetwork) as Hfirst.
  { exists Second. split; [reflexivity|]. split; [reflexivity|].
    intros th e [= <- _]. reflexivity. }
  assert (polled_early stopping healthyNetwork) as Hearly.
  { split; [reflexivity|]. intros th e [= <- _]. reflexivity. }
  split; [reflexivity|]. split; [assumption|]. split; [assumption|].
  exact (waitForHealthy_aborted deps stopping launched healthyNetwork
           eq_refl Hfirst Hearly).
Defined.





(** After the first write of the loop the record of [node1] has its URI
    and no identifier, and the other records are blank. *)
Lemma publish_not_atomic : ~ atomic_publish deps healthyNetwork launched.
Proof.
  intros H.
  assert (midway ∈ publishStates deps healthyNetwork launched) as Hin.
  { apply list_elem_of_lookup_2 with 2%nat. vm_compute. reflexivity. }
  assert (exists i, nodeInfos midway !! "node1" = Some i
                    /\ rpcpb.Uri i = "http://127.0.0.1:9650" /\ rpcpb.Id i = "")
    as (i & Hi & Hu & Hid).
  { eexists. split; [vm_compute; reflexivity|]. split; reflexivity. }
  destruct (H midway Hin) as [Hb|Hf].
  - destruct (Hb _ _ Hi) as [Hblank _]. rewrite Hu in Hblank. discriminate.
  - destruct (Hf _ _ Hi) as [_ Hfilled]. contradiction.
Qed.

Lemma readyc_publishes_witness :
  NodeIDPrefix deps <> ""
  /\ closed (readyc launched) = false
  /\ done (readycCloseOnce launched) = false
  /\ (forall s, s ∈ publishStates deps healthyNetwork launched ->
        closed (readyc s) = true ->
        populated (fst (GetAllNodes healthyNetwork)).*1 s)
  /\ (forall lc', afterSelect deps healthyNetwork (HealthCase None) launched
                  = (lc', Ret None) ->
        snd (GetAllNodes healthyNetwork) = None ->
        last (publishStates deps healthyNetwork launched) = Some lc'
        /\ closed (readyc lc') = true).
Proof.
  assert (NodeIDPrefix deps <> "") as Hp by discriminate.
  split; [assumption|]. split; [reflexivity|]. split; [reflexivity|].
  exact (readyc_publishes deps healthyNetwork launched Hp eq_refl eq_refl).
Defined.

Lemma healthy_run : (healthy, Ret None) ∈ waitForHealthy deps quiet launched.
Proof.
  assert (snd (afterSelect deps healthyNetwork (HealthCase None) launched) = Ret None)
    as Hsnd by (vm_compute; reflexivity).
  unfold waitForHealthy. cbn [nw launched set_nw]. apply list_elem_of_fmap.
  exists (HealthCase None). split.
  - unfold healthy.
    destruct (afterSelect deps healthyNetwork (HealthCase None) launched) as [a b].
    simpl in *. now rewrite Hsnd.
  - assert (select_ready quiet launched healthyNetwork = [HealthCase None]) as ->
      by (vm_compute; reflexivity).
    apply elem_of_cons. now left.
Qed.





Lemma registry_never_half_initialized_witness :
  NodeIDPrefix deps <> ""
  /\ consistent created
  /\ Forall (fun r => consistent (fst r)) (waitForHealthy deps quiet created)
  /\ Forall (fun r => consistent (fst r)) (start deps quiet created)
  /\ consistent (fst (stop created)).
Proof.
  assert (NodeIDPrefix deps <> "") as Hp by discriminate.
  destruct (registry_never_half_initialized deps Hp) as (Hnew & Hwait & Hstart & Hstop).
  pose proof (Hnew _ _ _ _ _ newNetwork_created) as Hc.
  split; [assumption|]. split; [assumption|].
  split; [apply Hwait, Hc|]. split; [apply Hstart, Hc | apply Hstop, Hc].
Defined.

Lemma newNetwork_created_failing :
  newNetwork failingDeps "/usr/local/bin/node" "/tmp/network-runner" "" ""
  = Ret (inl created).
Proof. vm_compute. reflexivity. Qed.

Lemma start_signals_once_witness :
  newNetwork failingDeps "/usr/local/bin/node" "/tmp/network-runner" "" ""
  = Ret (inl created)
  /\ start failingDeps quiet created <> []
  /\ Forall signalled (start failingDeps quiet created)
  /\ (forall err, NewNetwork failingDeps (cfg created) = inr err ->
        exists lc',
          start failingDeps quiet created = [(lc', Ret tt)]
          /\ buf (errc lc') = [err]
          /\ closed (donec lc') = true
          /\ history lc' = [SendErrc err; CloseDonec])
  /\ (forall n, NewNetwork failingDeps (cfg created) = inl n ->
        Forall2 start_of_wait
          (waitForHealthy failingDeps quiet (set_nw (Some n) created))
          (start failingDeps quiet created)).
Proof.
  split; [exact newNetwork_created_failing|].
  exact (start_signals_once failingDeps "/usr/local/bin/node" "/tmp/network-runner" "" ""
           quiet created newNetwork_created_failing).
Defined.

(** The launch failure of the scenario reaches the waiter. *)
Example failed_launch_reported :
  map (fun r => (snd r, buf (errc (fst r)), closed (donec (fst r))))
      (start failingDeps quiet created)
  = [(Ret tt, [OtherError "launch failed"], true)].
Proof. vm_compute. reflexivity. Qed.

Lemma twoCallers_initial : initial twoCallers.
Proof.
  unfold initial, twoCallers. cbn [net callers].
  split; [discriminate|]. split; [reflexivity|]. split; [reflexivity|].
  split; [reflexivity|]. repeat constructor.
Qed.


(** Both callers of the run have returned. *)
Example twoCallers_returned : callers afterStop = [Returned; Returned].
Proof. vm_compute. reflexivity. Qed.

(** C10, on the code. [stop] on an orchestrator that [newNetwork] built and
    that was never started reaches [lc.nw.Stop] with a nil handle and
    panics, [stopc] already closed and [Stop] never called; so does [stop]
    after a [start] whose launch failed, although [donec] is closed then. *)
Lemma stop_without_handle_panics :
  snd (stop created) = Panic "invalid memory address or nil pointer dereference"
  /\ closed (stopc (fst (stop created))) = true
  /\ occurrences NwStop (fst (stop created)) = 0%nat
  /\ Forall (fun r =>
       snd r = Ret tt
       /\ closed (donec (fst r)) = true
       /\ nw (fst r) = None
       /\ snd (stop (fst r)) = Panic "invalid memory address or nil pointer dereference")
      (start failingDeps quiet created).
Proof.
  split; [vm_compute; reflexivity|]. split; [vm_compute; reflexivity|].
  split; [vm_compute; reflexivity|].
  unfold start. cbn [NewNetwork failingDeps].
  constructor; [|constructor].
  repeat split; vm_compute; reflexivity.
Qed.

(** With the handle stored and the run loop never finishing, a lone
    caller of [stop] stays parked on [donec]. *)
Example stop_parks_until_done : snd (stop launched) = Blocked.
Proof. vm_compute. reflexivity. Qed.

End ScenarioFacts.

(* ===================================================================== *)
(** * Further properties of the orchestrator                              *)
(* ===================================================================== *)

Section NewNetworkFacts.

Import Server ServerSpec.

Variable d : Deps.

Lemma colors_lookup (i : nat) : (i < 5)%nat -> is_Some (colors !! i).
Proof. intros H. apply lookup_lt_is_Some. simpl. lia. Qed.

Lemma colors_lookup_ge (i : nat) : (5 <= i)%nat -> colors !! i = None.
Proof. intros H. apply lookup_ge_None. simpl. lia. Qed.

(** The loop completes when the indices stay below the number of colours. *)
Lemma configure_returns (execPath rootDataDir whitelistedSubnets logLevel : string)
    (total : nat) (ncs : list node_Config) (i : nat) (b : Built) :
  (i + length ncs = total)%nat -> (total <= 5)%nat ->
  exists b', configure d execPath rootDataDir whitelistedSubnets logLevel total i ncs b
             = Ret b'.
Proof.
  revert i b. induction ncs as [|nc rest IH]; intros i b Hlen Hfive; simpl.
  - eauto.
  - simpl in Hlen. rewrite Nat.mod_small by lia.
    destruct (colors_lookup i) as [col ->]; [lia|].
    apply IH; lia.
Qed.

(** It panics at index five when there are more nodes than colours. *)
Lemma configure_panics (execPath rootDataDir whitelistedSubnets logLevel : string)
    (total : nat) (ncs : list node_Config) (i : nat) (b : Built) :
  (i + length ncs = total)%nat -> (5 < total)%nat -> (i <= 5)%nat ->
  configure d execPath rootDataDir whitelistedSubnets logLevel total i ncs b
  = Panic "index out of range".
Proof.
  revert i b. induction ncs as [|nc rest IH]; intros i b Hlen Hfive Hi; simpl in *.
  - lia.
  - rewrite Nat.mod_small by lia.
    destruct (decide (i = 5)) as [->|Hne].
    + reflexivity.
    + destruct (colors_lookup i) as [col ->]; [lia|].
      apply IH; lia.
Qed.

(** X1. With the logging set up, [newNetwork] returns an orchestrator when
    the default configuration has at most five nodes, and panics with an
    index out of range, building nothing, when it has six or more: the
    colour of a node is taken at [i % len(cfg.NodeConfigs)] from a slice of
    five colours. *)
Theorem newNetwork_node_limit (execPath rootDataDir whitelistedSubnets logLevel : string) :
  DefaultConfig d = None ->
  Make d = None ->
  let total := length (NodeConfigs (NewDefaultConfig d execPath)) in
  ((total <= 5)%nat ->
     exists lc, newNetwork d execPath rootDataDir whitelistedSubnets logLevel = Ret (inl lc))
  /\ ((5 < total)%nat ->
        newNetwork d execPath rootDataDir whitelistedSubnets logLevel
        = Panic "index out of range").
Proof.
  intros Hcfg Hmake total. unfold newNetwork. rewrite Hcfg, Hmake. split; intros Htotal.
  - destruct (configure_returns execPath rootDataDir whitelistedSubnets
                (if String.eqb logLevel "" then "INFO" else logLevel)
                total (NodeConfigs (NewDefaultConfig d execPath)) 0 (mkBuilt [] [] ∅))
      as [b' Hb]; [reflexivity | assumption |].
    fold total. rewrite Hb. eauto.
  - fold total. rewrite configure_panics; [reflexivity | reflexivity | assumption | lia].
Qed.

(** A logging failure is returned as it is, before any configuration is
    read. *)
Lemma newNetwork_logging_error (execPath rootDataDir whitelistedSubnets logLevel : string)
    (err : error) :
  DefaultConfig d = Some err
  \/ (DefaultConfig d = None /\ Make d = Some err) ->
  newNetwork d execPath rootDataDir whitelistedSubnets logLevel = Ret (inr err).
Proof.
  unfold newNetwork. intros [-> | [-> ->]]; reflexivity.
Qed.

(** What the loop appends for the indices it visits, and that it leaves
    the records of all other names alone. *)
Lemma configure_exact (execPath rootDataDir whitelistedSubnets logLevel : string)
    (total : nat) (ncs : list node_Config) (i : nat) (b b' : Built) :
  (i + length ncs <= total)%nat ->
  configure d execPath rootDataDir whitelistedSubnets (effectiveLevel logLevel)
    total i ncs b = Ret b' ->
  length (builtConfigs b') = (length (builtConfigs b) + length ncs)%nat
  /\ (forall k, (k < length (builtConfigs b))%nat ->
        builtConfigs b' !! k = builtConfigs b !! k)
  /\ (forall k, (k < length ncs)%nat ->
        exists col, colors !! (i + k)%nat = Some col
          /\ builtConfigs b' !! (length (builtConfigs b) + k)%nat
             = Some (configOf d execPath rootDataDir whitelistedSubnets logLevel col (i + k))
          /\ builtInfos b' !! nodeName (i + k)
             = Some (infoOf d execPath rootDataDir whitelistedSubnets logLevel (i + k)))
  /\ (forall name, (forall k, (k < length ncs)%nat -> name <> nodeName (i + k)) ->
        builtInfos b' !! name = builtInfos b !! name).
Proof.
  revert i b. induction ncs as [|nc rest IH]; intros i b Hlen H;
    cbn [configure length] in *.
  - injection H as <-. split; [lia|]. split; [auto|]. split; [intros k Hk; lia | auto].
  - rewrite Nat.mod_small in H by lia.
    destruct (colors !! i) as [col|] eqn:Hcol; [|discriminate].
    apply IH in H as (Hl & Hold & Hnew & Hother); [|lia].
    cbn [builtConfigs builtNames builtInfos] in *.
    rewrite length_app in *. cbn [length] in *. split; [lia|]. split; [|split].
    + intros k Hk. rewrite Hold by lia. now rewrite lookup_app_l by lia.
    + intros [|k] Hk.
      * exists col. rewrite !Nat.add_0_r. split; [assumption|]. split.
        -- rewrite Hold by lia. rewrite lookup_app_r by lia.
           now rewrite Nat.sub_diag.
        -- rewrite Hother.
           ++ apply lookup_insert_eq.
           ++ intros k' _ Heq. apply nodeName_inj in Heq. lia.
      * destruct (Hnew k) as (col' & Hc' & Hcfg & Hinfo); [lia|].
        exists col'. replace (i + S k)%nat with (S i + k)%nat by lia.
        replace (length (builtConfigs b) + S k)%nat
          with (length (builtConfigs b) + 1 + k)%nat by lia.
        auto.
    + intros name Hname. rewrite Hother.
      * apply lookup_insert_ne. specialize (Hname 0%nat). rewrite Nat.add_0_r in Hname.
        intros Heq. apply Hname; [lia | now symmetry].
      * intros k Hk. replace (S i + k)%nat with (i + S k)%nat by lia.
        apply Hname. lia.
Qed.

(** X2. What [newNetwork] builds for each of its [N] nodes, in order: the
    name [node<i+1>]; a node configuration with that name, the payload, the
    executable and one writer (the [i]-th colour) for both output streams;
    and, under that name, a record with the same payload and directories and
    with empty URI and identifier. An empty log level stands for ["INFO"].
    No record is overwritten by a later node. *)
Theorem newNetwork_nodes (execPath rootDataDir whitelistedSubnets logLevel : string)
    (lc : localNetwork) (i : nat) :
  newNetwork d execPath rootDataDir whitelistedSubnets logLevel = Ret (inl lc) ->
  (i < length (NodeConfigs (NewDefaultConfig d execPath)))%nat ->
  binPath lc = execPath
  /\ length (NodeConfigs (cfg lc)) = length (NodeConfigs (NewDefaultConfig d execPath))
  /\ nodeNames lc !! i = Some (nodeName i)
  /\ (exists col, colors !! i = Some col
        /\ NodeConfigs (cfg lc) !! i
           = Some (configOf d execPath rootDataDir whitelistedSubnets logLevel col i))
  /\ nodeInfos lc !! nodeName i
     = Some (infoOf d execPath rootDataDir whitelistedSubnets logLevel i).
Proof.
  intros Hnew Hi.
  pose proof (newNetwork_registry d _ _ _ _ _ Hnew) as (Hnames & _ & _).
  unfold newNetwork in Hnew. destruct (DefaultConfig d); [discriminate|].
  destruct (Make d); [discriminate|].
  change (if String.eqb logLevel "" then "INFO" else logLevel)
    with (effectiveLevel logLevel) in Hnew.
  destruct (configure _ _ _ _ _ _ _ _ _) as [b| |] eqn:Hc; try discriminate.
  injection Hnew as <-. simpl in *.
  apply configure_exact in Hc as (Hl & _ & Hnew & _); [|simpl; lia]. simpl in *.
  destruct (Hnew i Hi) as (col & Hcol & Hcfg & Hinfo). simpl in *.
  split; [reflexivity|]. split; [assumption|]. split; [|split].
  - rewrite Hnames. rewrite list_lookup_fmap, lookup_seq_lt by assumption. reflexivity.
  - exists col. split; assumption.
  - assumption.
Qed.

End NewNetworkFacts.

Section WaitFacts.

Import Server ServerSpec.

Variable d : Deps.

Lemma fillOne_known (name : string) (node : Node) (lc : localNetwork) (k : string) :
  known (fillOne d name node lc) k <-> known lc k.
Proof.
  unfold known. rewrite fillOne_lookup. destruct (decide (name = k)) as [->|]; [|tauto].
  destruct (nodeInfos lc !! k); simpl; split; intros [x Hx]; eauto; discriminate.
Qed.

(** The loop completes when every name is known, and otherwise panics at
    the first unknown one. *)
Lemma fillAll_outcome (nodes : list (string * Node)) (lc : localNetwork) :
  (Forall (known lc) nodes.*1 /\ snd (fillAll d nodes lc) = Ret tt)
  \/ (Exists (fun name => nodeInfos lc !! name = None) nodes.*1
      /\ snd (fillAll d nodes lc) = Panic nilDereference).
Proof.
  revert lc. induction nodes as [|[name node] rest IH]; intros lc; simpl.
  - left. split; [constructor | reflexivity].
  - destruct (nodeInfos lc !! name) as [i|] eqn:Hname.
    + change (writeClient name node (writeId d name node (writeUri name node lc)))
        with (fillOne d name node lc).
      destruct (IH (fillOne d name node lc)) as [[Hall Hret] | [Hex Hpanic]].
      * left. split; [|assumption]. constructor.
        -- unfold known. rewrite Hname. eauto.
        -- eapply Forall_impl; [exact Hall|]. intros k. apply fillOne_known.
      * right. split; [|assumption]. apply Exists_cons_tl.
        eapply Exists_impl; [exact Hex|]. intros k Hk. cbv beta in Hk |- *.
        destruct (nodeInfos lc !! k) eqn:Hk'; [|reflexivity].
        assert (known (fillOne d name node lc) k) as [x Hx]
          by (apply fillOne_known; unfold known; rewrite Hk'; eauto).
        congruence.
    + right. split; [|reflexivity]. now apply Exists_cons_hd.
Qed.

Lemma closeReadyc_open (lc : localNetwork) :
  closed (readyc lc) = false ->
  snd (closeReadyc lc) = Ret tt
  /\ (done (readycCloseOnce lc) = false -> closed (readyc (fst (closeReadyc lc))) = true).
Proof.
  intros Hopen. unfold closeReadyc, close. rewrite Hopen.
  destruct (done (readycCloseOnce lc)); simpl; split; auto; discriminate.
Qed.

(** A run that returned [nil]: the case taken, the loop and the close. *)
Lemma waitForHealthy_success_inv (sg : Signals) (lc lc' : localNetwork) (n : Network) :
  nw lc = Some n ->
  (lc', Ret None) ∈ waitForHealthy d sg lc ->
  exists lc1,
    snd (GetAllNodes n) = None
    /\ fillAll d (fst (GetAllNodes n)) (set_nodes (fst (GetAllNodes n)) lc) = (lc1, Ret tt)
    /\ closeReadyc lc1 = (lc', Ret tt).
Proof.
  intros Hnw Hin. unfold waitForHealthy in Hin. rewrite Hnw in Hin.
  apply list_elem_of_fmap in Hin as (pick & Heq & _).
  destruct pick as [| |[err|]]; simpl in Heq; try discriminate.
  destruct (GetAllNodes n) as [nodes [err|]]; [discriminate|]. simpl.
  destruct (fillAll d nodes (set_nodes nodes lc)) as [lc1 [[]|w|]]; try discriminate.
  exists lc1. split; [reflexivity|]. split; [reflexivity|].
  destruct (closeReadyc lc1) as [lc2 [[]|w|]]; try discriminate. congruence.
Qed.

(** X3. A run of [waitForHealthy] that returns an error (abort, deadline,
    the collaborator's health error, a failure of [GetAllNodes]) returns the
    orchestrator exactly as it found it: no record is written, [lc.nodes] is
    not assigned, [readyc] stays as it was. *)
Theorem waitForHealthy_error_untouched (sg : Signals) (lc lc' : localNetwork) (err : error) :
  (lc', Ret (Some err)) ∈ waitForHealthy d sg lc -> lc' = lc.
Proof.
  unfold waitForHealthy. destruct (nw lc) as [n|].
  - intros Hin. apply list_elem_of_fmap in Hin as (pick & Heq & _).
    destruct pick as [| |[e|]]; simpl in Heq; try congruence.
    destruct (GetAllNodes n) as [nodes [e|]]; [congruence|].
    destruct (fillAll d nodes (set_nodes nodes lc)) as [lc1 [[]|w|]]; try discriminate.
    destruct (closeReadyc lc1) as [lc2 [[]|w|]]; discriminate.
  - intros Hin. apply list_elem_of_singleton in Hin. discriminate.
Qed.

(** X4. The health wait panics exactly on a node name that [newNetwork] did
    not register. With the ready signal still open and [GetAllNodes]
    succeeding, every run ends in one of three ways: it returns an error; it
    returns [nil], and then every name of the collaborator's map has a
    record; or it panics on a nil record, and then some name of the map has
    none. *)
Theorem waitForHealthy_unknown_node (sg : Signals) (lc lc' : localNetwork) (n : Network)
    (o : outcome (option error)) :
  nw lc = Some n ->
  snd (GetAllNodes n) = None ->
  closed (readyc lc) = false ->
  (lc', o) ∈ waitForHealthy d sg lc ->
  (exists err, o = Ret (Some err))
  \/ (o = Ret None /\ Forall (known lc) (fst (GetAllNodes n)).*1)
  \/ (o = Panic nilDereference
      /\ Exists (fun name => nodeInfos lc !! name = None) (fst (GetAllNodes n)).*1).
Proof.
  intros Hnw Herr Hopen Hin. unfold waitForHealthy in Hin. rewrite Hnw in Hin.
  apply list_elem_of_fmap in Hin as (pick & Heq & _).
  destruct pick as [| |[e|]]; simpl in Heq;
    try (left; injection Heq as -> ->; eexists; reflexivity).
  destruct (GetAllNodes n) as [nodes [e|]]; [discriminate|]. simpl in *.
  right.
  pose proof (fillAll_frame d nodes (set_nodes nodes lc)) as Hf. cbv zeta in Hf.
  destruct Hf as (_ & _ & _ & Hrc & _).
  destruct (fillAll_outcome nodes (set_nodes nodes lc)) as [[Hall Hret] | [Hex Hpanic]].
  - left. destruct (fillAll d nodes (set_nodes nodes lc)) as [lc1 o1]. simpl in *.
    subst o1. destruct (closeReadyc_open lc1) as [Hc _]; [congruence|].
    destruct (closeReadyc lc1) as [lc2 o2]. simpl in Hc. subst o2. simpl in Heq.
    split; [congruence | exact Hall].
  - right. destruct (fillAll d nodes (set_nodes nodes lc)) as [lc1 o1]. simpl in *.
    subst o1. simpl in Heq. split; [now injection Heq as _ -> | exact Hex].
Qed.

(** The loop only writes the registry and the API clients. *)
Lemma fillAll_same_but_registry (nodes : list (string * Node)) (lc : localNetwork) :
  same_but_registry lc (fst (fillAll d nodes lc)).
Proof.
  unfold same_but_registry.
  revert lc. induction nodes as [|[name node] rest IH]; intros lc; simpl.
  - now destruct lc.
  - destruct (nodeInfos lc !! name); simpl; [|now destruct lc].
    rewrite IH at 1. now destruct lc.
Qed.

(** The records and clients after the loop, for a map with distinct
    names. *)
Lemma fillAll_lookup (nodes : list (string * Node)) (lc : localNetwork) :
  NoDup nodes.*1 ->
  snd (fillAll d nodes lc) = Ret tt ->
  (forall name node, (name, node) ∈ nodes ->
     nodeInfos (fst (fillAll d nodes lc)) !! name = fillRecord d node <$> nodeInfos lc !! name
     /\ apiClis (fst (fillAll d nodes lc)) !! name = Some (GetAPIClient node))
  /\ (forall name, name ∉ nodes.*1 ->
        nodeInfos (fst (fillAll d nodes lc)) !! name = nodeInfos lc !! name
        /\ apiClis (fst (fillAll d nodes lc)) !! name = apiClis lc !! name).
Proof.
  revert lc. induction nodes as [|[name0 node0] rest IH]; intros lc Hnd Hret.
  - split; [intros name node Hin; inversion Hin | auto].
  - simpl in Hnd. apply NoDup_cons in Hnd as [Hfresh Hnd]. simpl in *.
    destruct (nodeInfos lc !! name0) as [i0|] eqn:Hname0; [|discriminate].
    change (writeClient name0 node0 (writeId d name0 node0 (writeUri name0 node0 lc)))
      with (fillOne d name0 node0 lc) in *.
    destruct (IH (fillOne d name0 node0 lc) Hnd Hret) as [Hin Hout].
    assert (Hclis : forall k, apiClis (fillOne d name0 node0 lc) !! k
                              = if decide (name0 = k) then Some (GetAPIClient node0)
                                else apiClis lc !! k).
    { intros k. unfold fillOne, writeClient. simpl.
      destruct (decide (name0 = k)) as [->|Hne];
        [apply lookup_insert_eq | now apply lookup_insert_ne]. }
    split.
    + intros name node Hmem. apply elem_of_cons in Hmem as [[= -> ->] | Hmem].
      * destruct (Hout name0 Hfresh) as [-> ->].
        rewrite fillOne_lookup, Hclis, !decide_True by reflexivity.
        rewrite Hname0. split; reflexivity.
      * destruct (Hin name node Hmem) as [-> ->].
        assert (name0 <> name) as Hne.
        { intros <-. apply Hfresh. apply list_elem_of_fmap. exists (name0, node). auto. }
        rewrite fillOne_lookup, decide_False by assumption. split; reflexivity.
    + intros name Hnot. apply not_elem_of_cons in Hnot as [Hne Hnot].
      destruct (Hout name Hnot) as [-> ->].
      rewrite fillOne_lookup, Hclis, !decide_False by congruence. split; reflexivity.
Qed.

(** A wait that returned [nil] ran the loop to its end and then closed
    the ready signal. *)
Lemma success_state (sg : Signals) (lc lc' : localNetwork) (n : Network) :
  nw lc = Some n ->
  closed (readyc lc) = false ->
  done (readycCloseOnce lc) = false ->
  (lc', Ret None) ∈ waitForHealthy d sg lc ->
  exists lc1,
    fillAll d (fst (GetAllNodes n)) (set_nodes (fst (GetAllNodes n)) lc) = (lc1, Ret tt)
    /\ lc' = record CloseReadyc
               (set_readycCloseOnce (mkOnce true false)
                  (set_readyc (mkChan (cap (readyc lc)) (buf (readyc lc)) true) lc1)).
Proof.
  intros Hnw Hopen Honce Hin.
  apply waitForHealthy_success_inv with (n := n) in Hin as (lc1 & _ & Hfill & Hclose);
    [|assumption].
  exists lc1. split; [assumption|].
  pose proof (fillAll_same_but_registry (fst (GetAllNodes n))
                (set_nodes (fst (GetAllNodes n)) lc)) as Hsame.
  rewrite Hfill in Hsame. simpl in Hsame.
  assert (readyc lc1 = readyc lc /\ readycCloseOnce lc1 = readycCloseOnce lc) as [Hrc Hro]
    by (rewrite Hsame; split; reflexivity).
  unfold closeReadyc, close in Hclose. rewrite Hro, Honce, Hrc, Hopen in Hclose.
  congruence.
Qed.

(** X5. What a successful health wait leaves behind, for a collaborator map
    with distinct names and an orchestrator whose ready signal is untouched:
    [lc.nodes] is the map; [readyc] is closed; the record of every node of
    the map has its URI and identifier set from the handle and its other
    fields as before, and the node has its API client; the records and
    clients of all other names, and everything else in the orchestrator
    except the guard of [readyc], are as before. *)
Theorem waitForHealthy_success_writes (sg : Signals) (lc lc' : localNetwork) (n : Network) :
  nw lc = Some n ->
  NoDup (fst (GetAllNodes n)).*1 ->
  closed (readyc lc) = false ->
  done (readycCloseOnce lc) = false ->
  (lc', Ret None) ∈ waitForHealthy d sg lc ->
  nodes lc' = fst (GetAllNodes n)
  /\ closed (readyc lc') = true
  /\ (forall name node, (name, node) ∈ fst (GetAllNodes n) ->
        exists i, nodeInfos lc !! name = Some i
          /\ nodeInfos lc' !! name = Some (fillRecord d node i)
          /\ apiClis lc' !! name = Some (GetAPIClient node))
  /\ (forall name, name ∉ (fst (GetAllNodes n)).*1 ->
        nodeInfos lc' !! name = nodeInfos lc !! name
        /\ apiClis lc' !! name = apiClis lc !! name)
  /\ (binPath lc', cfg lc', nw lc', nodeNames lc', stopc lc', donec lc', errc lc',
      stopOnce lc')
     = (binPath lc, cfg lc, nw lc, nodeNames lc, stopc lc, donec lc, errc lc, stopOnce lc).
Proof.
  intros Hnw Hnd Hopen Honce Hin.
  destruct (success_state sg lc lc' n Hnw Hopen Honce Hin) as (lc1 & Hfill & ->).
  set (ns := fst (GetAllNodes n)) in *.
  pose proof (fillAll_lookup ns (set_nodes ns lc) Hnd) as Hlk.
  pose proof (fillAll_same_but_registry ns (set_nodes ns lc)) as Hsame.
  pose proof (fillAll_outcome ns (set_nodes ns lc)) as Hout.
  rewrite Hfill in Hlk, Hsame, Hout. simpl in Hlk, Hsame, Hout.
  destruct (Hlk eq_refl) as [Hnode Hother]. clear Hlk.
  destruct Hout as [[Hall _] | [_ ?]]; [|discriminate].
  simpl. split; [now rewrite Hsame|]. split; [reflexivity|]. split; [|split].
  - intros name node Hmem. destruct (Hnode name node Hmem) as [Hi Hc].
    rewrite Forall_forall in Hall.
    destruct (Hall name) as [i Hknown].
    { apply list_elem_of_fmap. exists (name, node). auto. }
    simpl in Hknown. exists i. rewrite Hi, Hc, Hknown. auto.
  - intros name Hnot. destruct (Hother name Hnot) as [-> ->]. auto.
  - rewrite Hsame. reflexivity.
Qed.

(** X6. The order in which [range] visits the collaborator's map does not
    matter: for two orders of a map with distinct names, the loop ends the
    same way, and when it completes, it leaves the same registry and the
    same API clients. *)
Theorem fillAll_order_independent (nodes nodes' : list (string * Node))
    (lc : localNetwork) :
  nodes ≡ₚ nodes' ->
  NoDup nodes.*1 ->
  snd (fillAll d nodes lc) = snd (fillAll d nodes' lc)
  /\ (snd (fillAll d nodes lc) = Ret tt ->
      fst (fillAll d nodes lc) = fst (fillAll d nodes' lc)).
Proof.
  intros Hperm Hnd.
  assert (Hperm1 : nodes.*1 ≡ₚ nodes'.*1) by now apply fmap_Permutation.
  assert (Hnd' : NoDup nodes'.*1) by now rewrite <- Hperm1.
  assert (Hsnd : snd (fillAll d nodes lc) = snd (fillAll d nodes' lc)).
  { destruct (fillAll_outcome nodes lc) as [[Ha ->] | [He ->]];
      destruct (fillAll_outcome nodes' lc) as [[Ha' ->] | [He' ->]]; try reflexivity.
    - exfalso. rewrite <- Hperm1 in He'. rewrite Forall_forall in Ha.
      apply Exists_exists in He' as (k & Hk & Hnone).
      destruct (Ha k Hk) as [x Hx]. congruence.
    - exfalso. rewrite Hperm1 in He. rewrite Forall_forall in Ha'.
      apply Exists_exists in He as (k & Hk & Hnone).
      destruct (Ha' k Hk) as [x Hx]. congruence. }
  split; [assumption|]. intros Hret.
  destruct (fillAll_lookup nodes lc Hnd Hret) as [Hin Hout].
  destruct (fillAll_lookup nodes' lc Hnd') as [Hin' Hout']; [congruence|].
  rewrite (fillAll_same_but_registry nodes lc), (fillAll_same_but_registry nodes' lc).
  assert (nodeInfos (fst (fillAll d nodes lc)) = nodeInfos (fst (fillAll d nodes' lc))
          /\ apiClis (fst (fillAll d nodes lc)) = apiClis (fst (fillAll d nodes' lc)))
    as [-> ->]; [|reflexivity].
  split; apply map_eq; intros k.
  - destruct (decide (k ∈ nodes.*1)) as [Hk|Hk].
    + apply list_elem_of_fmap in Hk as ([k' node] & -> & Hmem). simpl.
      destruct (Hin k' node Hmem) as [-> _].
      rewrite Hperm in Hmem. destruct (Hin' k' node Hmem) as [-> _]. reflexivity.
    + destruct (Hout k Hk) as [-> _].
      rewrite Hperm1 in Hk. destruct (Hout' k Hk) as [-> _]. reflexivity.
  - destruct (decide (k ∈ nodes.*1)) as [Hk|Hk].
    + apply list_elem_of_fmap in Hk as ([k' node] & -> & Hmem). simpl.
      destruct (Hin k' node Hmem) as [_ ->].
      rewrite Hperm in Hmem. destruct (Hin' k' node Hmem) as [_ ->]. reflexivity.
    + destruct (Hout k Hk) as [_ ->].
      rewrite Hperm1 in Hk. destruct (Hout' k Hk) as [_ ->]. reflexivity.
Qed.

(** X7. The health wait is bounded: whatever the collaborator and the
    callers of [stop] do, the [select] proceeds no later than the two-minute
    ceiling (or than its own evaluation, if that comes later), it has a case
    to take, and no run of [waitForHealthy] stays parked. *)
Theorem waitForHealthy_bounded (sg : Signals) (lc : localNetwork) (n : Network) :
  nw lc = Some n ->
  (fire sg lc n <= N.max (pollAt sg) healthyWait)%N
  /\ waitForHealthy d sg lc <> []
  /\ Forall (fun r => snd r <> Blocked) (waitForHealthy d sg lc).
Proof.
  intros Hnw. split; [|split].
  - unfold fire, earliest, omin.
    destruct (stop_ready sg lc), (health_ready n); lia.
  - apply waitForHealthy_nonempty.
  - eapply Forall_impl; [apply waitForHealthy_frame|]. intros r [_ H]. exact H.
Qed.

(** X8. When the collaborator's health report comes first, and the
    [select] is evaluated before the deadline and before any stop request,
    a reported error is returned as it is, the orchestrator untouched. *)
Theorem waitForHealthy_health_error (sg : Signals) (lc : localNetwork) (n : Network)
    (th : N) (err : error) :
  nw lc = Some n ->
  Healthy n = Some (th, Some err) ->
  health_first sg lc n th ->
  waitForHealthy d sg lc = [(lc, Ret (Some err))].
Proof.
  intros Hnw Hh (Hdead & Hpoll & Hstop).
  unfold waitForHealthy. rewrite Hnw.
  unfold select_ready, fire, earliest, health_ready. rewrite Hh. simpl.
  destruct (stop_ready sg lc) as [ts|] eqn:Hs; simpl.
  - destruct (Hstop ts eq_refl) as [Hlt Hpl].
    repeat match goal with
           | |- context [(?a <=? ?b)%N] => destruct (N.leb_spec a b)
           end; simpl; try reflexivity; lia.
  - repeat match goal with
           | |- context [(?a <=? ?b)%N] => destruct (N.leb_spec a b)
           end; simpl; try reflexivity; lia.
Qed.

(** X9. When the deadline comes first, before any stop request and any
    health report, and the [select] is evaluated before these, the wait
    returns [context.DeadlineExceeded] and leaves the orchestrator as it
    was, even if the collaborator reports healthy later. *)
Theorem waitForHealthy_deadline_first (sg : Signals) (lc : localNetwork) (n : Network) :
  nw lc = Some n ->
  deadline_first sg lc n ->
  waitForHealthy d sg lc = [(lc, Ret (Some context_DeadlineExceeded))].
Proof.
  intros Hnw (Hstop & Hhealth).
  unfold waitForHealthy. rewrite Hnw.
  unfold select_ready, fire, earliest, health_ready.
  destruct (stop_ready sg lc) as [ts|] eqn:Hs;
    destruct (Healthy n) as [[th e]|] eqn:Hh; simpl;
    try (destruct (Hstop ts eq_refl) as [? ?]);
    try (destruct (Hhealth th e eq_refl) as [? ?]);
    repeat match goal with
           | |- context [(?a <=? ?b)%N] => destruct (N.leb_spec a b)
           end; simpl; try reflexivity; lia.
Qed.

Lemma fillRecord_idempotent (node : Node) (i : rpcpb.NodeInfo) :
  fillRecord d node (fillRecord d node i) = fillRecord d node i.
Proof. destruct i. reflexivity. Qed.

Lemma set_nodes_same (lc : localNetwork) (ns : list (string * Node)) :
  nodes lc = ns -> set_nodes ns lc = lc.
Proof. intros <-. now destruct lc. Qed.

Lemma set_registry_same (lc : localNetwork) :
  set_apiClis (apiClis lc) (set_nodeInfos (nodeInfos lc) lc) = lc.
Proof. now destruct lc. Qed.

(** X23. The health wait can be repeated. After a wait that succeeded (on a
    collaborator map with distinct names), a further wait that succeeds
    against the same collaborator returns the orchestrator exactly as the
    first one left it: the same values are written again, and the guard of
    [readyc] keeps the closed channel from being closed a second time. *)
Theorem waitForHealthy_idempotent (sg sg' : Signals) (lc lc' lc'' : localNetwork)
    (n : Network) :
  nw lc = Some n ->
  NoDup (fst (GetAllNodes n)).*1 ->
  closed (readyc lc) = false ->
  done (readycCloseOnce lc) = false ->
  (lc', Ret None) ∈ waitForHealthy d sg lc ->
  (lc'', Ret None) ∈ waitForHealthy d sg' lc' ->
  lc'' = lc'.
Proof.
  intros Hnw Hnd Hopen Honce Hfirst Hsecond.
  destruct (success_state sg lc lc' n Hnw Hopen Honce Hfirst) as (lc1 & Hfill1 & Hlc').
  set (ns := fst (GetAllNodes n)) in *.
  pose proof (fillAll_lookup ns (set_nodes ns lc) Hnd) as Hlk1.
  pose proof (fillAll_same_but_registry ns (set_nodes ns lc)) as Hsame1.
  pose proof (fillAll_outcome ns (set_nodes ns lc)) as Hout1.
  rewrite Hfill1 in Hlk1, Hsame1, Hout1. simpl in Hlk1, Hsame1, Hout1.
  destruct (Hlk1 eq_refl) as [Hin1 _]. clear Hlk1.
  destruct Hout1 as [[Hall _] | [_ ?]]; [|discriminate].
  (* what the first wait left *)
  assert (nw lc' = Some n) as Hnw' by (rewrite Hlc', Hsame1; exact Hnw).
  assert (nodes lc' = ns) as Hnodes by (rewrite Hlc', Hsame1; reflexivity).
  assert (done (readycCloseOnce lc') = true) as Hdone by (rewrite Hlc'; reflexivity).
  assert (nodeInfos lc' = nodeInfos lc1 /\ apiClis lc' = apiClis lc1) as [Hi1 Hc1]
    by (rewrite Hlc'; split; reflexivity).
  assert (Hnode : forall name node, (name, node) ∈ ns ->
            exists i, nodeInfos lc' !! name = Some (fillRecord d node i)
                      /\ apiClis lc' !! name = Some (GetAPIClient node)).
  { intros name node Hmem. destruct (Hin1 name node Hmem) as [Hi Hc].
    rewrite Forall_forall in Hall. destruct (Hall name) as [i Hknown].
    { apply list_elem_of_fmap. exists (name, node). auto. }
    simpl in Hknown. exists i. rewrite Hi1, Hc1, Hi, Hc, Hknown. auto. }
  (* the second wait *)
  apply waitForHealthy_success_inv with (n := n) in Hsecond as (lc2 & _ & Hfill & Hclose);
    [|assumption].
  fold ns in Hfill. rewrite (set_nodes_same lc' ns Hnodes) in Hfill.
  pose proof (fillAll_lookup ns lc' Hnd) as Hlk.
  pose proof (fillAll_same_but_registry ns lc') as Hsame.
  rewrite Hfill in Hlk, Hsame. simpl in Hlk, Hsame.
  destruct (Hlk eq_refl) as [Hin Hout]. clear Hlk.
  assert (nodeInfos lc2 = nodeInfos lc' /\ apiClis lc2 = apiClis lc') as [Hi Hc].
  { split; apply map_eq; intros k.
    - destruct (decide (k ∈ ns.*1)) as [Hk|Hk].
      + apply list_elem_of_fmap in Hk as ([k' node] & -> & Hmem). simpl.
        destruct (Hin k' node Hmem) as [-> _].
        destruct (Hnode k' node Hmem) as (i & -> & _). simpl.
        now rewrite fillRecord_idempotent.
      + now destruct (Hout k Hk) as [-> _].
    - destruct (decide (k ∈ ns.*1)) as [Hk|Hk].
      + apply list_elem_of_fmap in Hk as ([k' node] & -> & Hmem). simpl.
        destruct (Hin k' node Hmem) as [_ ->].
        now destruct (Hnode k' node Hmem) as (i & _ & ->).
      + now destruct (Hout k Hk) as [_ ->]. }
  assert (lc2 = lc') as ->.
  { rewrite Hsame, Hi, Hc. apply set_registry_same. }
  unfold closeReadyc in Hclose. rewrite Hdone in Hclose. congruence.
Qed.

End WaitFacts.

Section StartStopFacts.

Import Server ServerSpec.

Variable d : Deps.

(** X10. A launch that fails: [start] returns after having sent exactly
    that error, which the buffer of [errc] holds, and having closed [donec];
    no network handle is stored and the registry, [lc.nodes], [readyc] and
    [stopc] are as before. *)
Theorem start_launch_failure (sg : Signals) (lc : localNetwork) (err : error) :
  NewNetwork d (cfg lc) = inr err ->
  errc_ready lc ->
  closed (donec lc) = false ->
  exists lc',
    start d sg lc = [(lc', Ret tt)]
    /\ buf (errc lc') = [err]
    /\ closed (donec lc') = true
    /\ history lc' = history lc ++ [SendErrc err; CloseDonec]
    /\ (nw lc', nodes lc', nodeInfos lc', apiClis lc', readyc lc', stopc lc')
       = (nw lc, nodes lc, nodeInfos lc, apiClis lc, readyc lc, stopc lc).
Proof.
  intros Hlaunch (Hec & Heb & Hcap) Hdc.
  unfold start. rewrite Hlaunch. unfold report, send. rewrite Hec, Heb, Hcap. simpl.
  unfold close. rewrite Hdc. simpl. eexists. split; [reflexivity|]. simpl.
  rewrite <- app_assoc. repeat split.
Qed.

(** X11. After a launch that succeeded, [start] turns each way the health
    wait can end into its own end: a panic of the wait goes on after [donec]
    has been closed; otherwise [start] returns, and the error channel holds
    exactly the error the wait returned, and nothing when the wait
    succeeded. In every case [donec] is closed and the registry is the one
    the wait left. *)
Theorem start_reports_wait (sg : Signals) (lc : localNetwork) (n : Network) :
  NewNetwork d (cfg lc) = inl n ->
  errc_ready lc ->
  closed (donec lc) = false ->
  Forall2 start_of_wait (waitForHealthy d sg (set_nw (Some n) lc)) (start d sg lc).
Proof.
  intros Hlaunch (Hec & Heb & Hcap) Hdc.
  unfold start. rewrite Hlaunch. apply Forall2_fmap_r, Forall_Forall2_diag.
  eapply Forall_impl; [apply waitForHealthy_frame|].
  intros [lc1 o] [Hsig Hnb]. unfold signalling in Hsig. simpl in Hsig, Hnb.
  injection Hsig as Hd1 He1 _ _.
  unfold start_of_wait, compose.
  destruct o as [[err|]|w|]; try contradiction; cbv beta iota; cbn [fst snd].
  - unfold report, send. rewrite He1, Hec, Heb, Hcap. simpl.
    unfold close. simpl. rewrite Hd1, Hdc. simpl. repeat split.
  - unfold deferred, close. rewrite Hd1, Hdc. simpl. rewrite He1, Heb. repeat split.
  - unfold deferred, close. rewrite Hd1, Hdc. simpl. rewrite He1, Heb. repeat split.
Qed.

(** X12. [start] is good for one call: once [donec] is closed, no run of
    a further [start] on the same orchestrator returns; it panics closing
    the closed channel, or stays parked on a full error channel. *)
Theorem start_not_reentrant (sg : Signals) (lc : localNetwork) :
  closed (donec lc) = true ->
  Forall (fun r => snd r = Blocked \/ exists w, snd r = Panic w) (start d sg lc).
Proof.
  intros Hdc.
  assert (Hdef : forall lc1 o, closed (donec lc1) = true ->
            snd (deferred (lc1, o)) = Blocked \/ exists w, snd (deferred (lc1, o)) = Panic w).
  { intros lc1 o H1. unfold deferred, close. rewrite H1.
    destruct o; simpl; eauto. }
  assert (Hrep : forall lc1 err, closed (donec lc1) = true ->
            closed (donec (fst (report err lc1))) = true).
  { intros lc1 err H1. unfold report, send.
    destruct (closed (errc lc1)); [assumption|].
    destruct (length (buf (errc lc1)) <? cap (errc lc1))%nat; assumption. }
  unfold start. destruct (NewNetwork d (cfg lc)) as [n|err].
  - apply Forall_fmap. eapply Forall_impl; [apply waitForHealthy_frame|].
    intros [lc1 o] [Hsig _]. unfold signalling in Hsig. simpl in Hsig.
    injection Hsig as Hd1 _ _ _. unfold compose.
    assert (closed (donec lc1) = true) as H1 by (rewrite Hd1; exact Hdc).
    destruct o as [[err|]|w|].
    + specialize (Hrep lc1 err H1). destruct (report err lc1) as [lc2 o2].
      now apply Hdef.
    + now apply Hdef.
    + now apply Hdef.
    + left. reflexivity.
  - constructor; [|constructor].
    specialize (Hrep lc err Hdc). destruct (report err lc) as [lc2 o2]. now apply Hdef.
Qed.

(** X13. [stop] called twice in a row, on an orchestrator that holds its
    handle and whose run loop is over: the first call closes [stopc], then
    calls [Stop] of the network, in this order, and returns; the second call
    returns at once and changes nothing. *)
Theorem stop_twice (lc : localNetwork) (n : Network) :
  nw lc = Some n ->
  stopOnce lc = newOnce ->
  closed (stopc lc) = false ->
  closed (donec lc) = true ->
  exists lc1,
    stop lc = (lc1, Ret tt)
    /\ history lc1 = history lc ++ [CloseStopc; NwStop]
    /\ closed (stopc lc1) = true
    /\ stop lc1 = (lc1, Ret tt).
Proof.
  intros Hnw Hso Hsc Hdc. destruct lc. simpl in *. subst.
  destruct stopc0, donec0. simpl in *. subst.
  eexists. split; [reflexivity|]. simpl. rewrite <- app_assoc. repeat split.
Qed.

(** X14. After a first [stop] that panicked on the absent handle, the guard
    is spent: [stopc] is closed, [Stop] of the network was not called, and a
    later [stop] returns at once without calling it, even when the handle
    has been stored in the meantime. *)
Theorem stop_not_retried (lc : localNetwork) :
  nw lc = None ->
  stopOnce lc = newOnce ->
  closed (stopc lc) = false ->
  exists lc1,
    stop lc = (lc1, Panic "invalid memory address or nil pointer dereference")
    /\ closed (stopc lc1) = true
    /\ occurrences NwStop lc1 = occurrences NwStop lc
    /\ forall n, stop (set_nw (Some n) lc1) = (set_nw (Some n) lc1, Ret tt).
Proof.
  intros Hnw Hso Hsc. destruct lc. simpl in *. subst.
  destruct stopc0. simpl in *. subst.
  eexists. split; [reflexivity|]. unfold occurrences. simpl.
  rewrite List.filter_app. simpl. rewrite app_nil_r. repeat split.
Qed.

(** *** No deadlock among the callers of [stop] *)

Lemma work_insert (pcs : list Pc) (i : nat) (pc pc' : Pc) :
  pcs !! i = Some pc ->
  (work (<[i := pc']> pcs) + remaining pc = work pcs + remaining pc')%nat.
Proof.
  unfold work. revert i. induction pcs as [|p pcs IH]; intros i Hi; [discriminate|].
  destruct i as [|i]; csimpl in *.
  - injection Hi as ->. lia.
  - specialize (IH i Hi). lia.
Qed.

Lemma work_positive (pcs : list Pc) :
  (0 < work pcs)%nat -> exists i pc, pcs !! i = Some pc /\ (0 < remaining pc)%nat.
Proof.
  unfold work. induction pcs as [|p pcs IH]; csimpl; intros H; [lia|].
  destruct (decide (0 < remaining p)%nat) as [Hp|Hp].
  - exists 0%nat, p. auto.
  - destruct IH as (i & pc & Hi & Hpc); [lia|]. exists (S i), pc. auto.
Qed.

Lemma population_positive (q : Pc) (pcs : list Pc) :
  (0 < population q pcs)%nat -> exists i, pcs !! i = Some q.
Proof.
  unfold population. induction pcs as [|p pcs IH]; simpl; [lia|].
  destruct (bool_decide_reflect (p = q)) as [->|Hne]; simpl.
  - intros _. exists 0%nat. reflexivity.
  - intros H. destruct (IH H) as [i Hi]. exists (S i). exact Hi.
Qed.

Lemma stop_step_donec (lc lc' : localNetwork) (pc pc' : Pc) :
  stop_step lc pc = Some (lc', pc') -> donec lc' = donec lc.
Proof.
  intros H. destruct pc; simpl in H; unfold close in H;
    repeat match type of H with
           | context [if ?b then _ else _] => destruct b
           | context [match nw ?x with _ => _ end] => destruct (nw x)
           end; try discriminate; injection H as <- _; reflexivity.
Qed.

(** A caller can move, and gets closer to its end, once the run loop has
    closed [donec]. *)
Lemma guarded_progress (s : System) :
  guarded s ->
  closed (donec (net s)) = true ->
  (0 < work (callers s))%nat ->
  exists s', step s s'
             /\ (work (callers s') < work (callers s))%nat
             /\ closed (donec (net s')) = true.
Proof.
  destruct s as [lc pcs]. unfold guarded. cbn [net callers]. cbv zeta.
  intros (Hnw & Hm & Hpan & Hrun & Hocc & Hsc & Hout & Hdd & Hret) Hdc Hwork.
  assert (Hmove : forall i pc lc' pc',
            pcs !! i = Some pc -> stop_step lc pc = Some (lc', pc') ->
            (remaining pc' < remaining pc)%nat ->
            exists s', step (mkSystem lc pcs) s'
                       /\ (work (callers s') < work pcs)%nat
                       /\ closed (donec (net s')) = true).
  { intros i pc lc' pc' Hi Hst Hlt. exists (mkSystem lc' (<[i := pc']> pcs)).
    split; [exact (step_caller (mkSystem lc pcs) i pc pc' lc' Hi Hst)|].
    cbn [net callers]. split.
    - pose proof (work_insert pcs i pc pc' Hi). lia.
    - rewrite (stop_step_donec _ _ _ _ Hst). exact Hdc. }
  destruct (nw lc) as [n|] eqn:Hn; [clear Hnw | contradiction].
  destruct (m (stopOnce lc)) eqn:Hmm; simpl in Hm.
  - (* the mutex is held: its holder moves *)
    destruct (done (stopOnce lc)) eqn:Hd; simpl in *.
    + assert (0 < population AtCheck pcs)%nat as Hq by lia.
      apply population_positive in Hq as [i Hi].
      eapply (Hmove i AtCheck); [exact Hi | simpl; rewrite Hd; reflexivity | simpl; lia].
    + destruct (decide (0 < population AtCheck pcs)%nat) as [Hq|Hq].
      { apply population_positive in Hq as [i Hi].
        eapply (Hmove i AtCheck); [exact Hi | simpl; rewrite Hd; reflexivity | simpl; lia]. }
      destruct (decide (0 < population AtCloseStopc pcs)%nat) as [Hq1|Hq1].
      { apply population_positive in Hq1 as [i Hi].
        assert (closed (stopc lc) = false) as Hopen.
        { pose proof (population_lookup _ _ _ Hi).
          destruct (closed (stopc lc)) eqn:Hcl; [simpl in Hsc; lia | reflexivity]. }
        eapply (Hmove i AtCloseStopc);
          [exact Hi | simpl; unfold close; rewrite Hopen; reflexivity | simpl; lia]. }
      destruct (decide (0 < population AtNwStop pcs)%nat) as [Hq2|Hq2].
      { apply population_positive in Hq2 as [i Hi].
        eapply (Hmove i AtNwStop); [exact Hi | simpl; rewrite Hn; reflexivity | simpl; lia]. }
      destruct (decide (0 < population AtDonec pcs)%nat) as [Hq3|Hq3].
      { apply population_positive in Hq3 as [i Hi].
        eapply (Hmove i AtDonec); [exact Hi | simpl; rewrite Hdc; reflexivity | simpl; lia]. }
      assert (0 < population AtOutf pcs)%nat as Hq4 by lia.
      apply population_positive in Hq4 as [i Hi].
      eapply (Hmove i AtOutf); [exact Hi | reflexivity | simpl; lia].
  - (* the mutex is free: any caller that has not returned moves *)
    apply work_positive in Hwork as (i & pc & Hi & Hpc).
    pose proof (population_lookup _ _ _ Hi) as Hpop.
    destruct pc; simpl in Hpc; try lia.
    + destruct (done (stopOnce lc)) eqn:Hd.
      * eapply (Hmove i AtDo); [exact Hi | simpl; rewrite Hd; reflexivity | simpl; lia].
      * eapply (Hmove i AtDo); [exact Hi | simpl; rewrite Hd; reflexivity | simpl; lia].
    + eapply (Hmove i AtLock); [exact Hi | simpl; rewrite Hmm; reflexivity | simpl; lia].
Qed.

Lemma guarded_completes (k : nat) (s : System) :
  (work (callers s) <= k)%nat ->
  guarded s ->
  closed (donec (net s)) = true ->
  exists s', steps s s' /\ work (callers s') = 0%nat.
Proof.
  revert s. induction k as [|k IH]; intros s Hk Hg Hdc.
  - exists s. split; [apply rtc_refl | lia].
  - destruct (decide (0 < work (callers s))%nat) as [Hpos|Hzero].
    + destruct (guarded_progress s Hg Hdc Hpos) as (s1 & Hstep & Hlt & Hdc1).
      destruct (IH s1) as (s' & Hsteps & Hdone);
        [lia | eapply step_guarded; eassumption | assumption |].
      exists s'. split; [eapply rtc_l; eassumption | assumption].
    + exists s. split; [apply rtc_refl | lia].
Qed.

Lemma work_zero_returned (pcs : list Pc) :
  work pcs = 0%nat -> population Panicked pcs = 0%nat -> Forall (fun pc => pc = Returned) pcs.
Proof.
  unfold work, population. induction pcs as [|p pcs IH]; csimpl; [constructor|].
  intros Hw Hp. destruct p; simpl in *; try lia.
  constructor; [reflexivity | apply IH; lia].
Qed.

(** X15. The callers of [stop] cannot deadlock. From every state that any
    number of callers can reach, on an orchestrator that holds its handle,
    there is a way on, the run loop closing [donec] if it has not yet, that
    brings every caller to its return. *)
Theorem stop_no_deadlock (s0 s : System) :
  initial s0 ->
  steps s0 s ->
  exists s', steps s s' /\ Forall (fun pc => pc = Returned) (callers s').
Proof.
  intros Hinit Hsteps.
  pose proof (steps_guarded _ _ Hsteps (initial_guarded _ Hinit)) as Hg.
  assert (exists s1, steps s s1 /\ guarded s1 /\ closed (donec (net s1)) = true)
    as (s1 & Hs1 & Hg1 & Hdc1).
  { destruct (closed (donec (net s))) eqn:Hdc.
    - exists s. split; [apply rtc_refl | auto].
    - assert (step s (mkSystem
                 (record CloseDonec
                    (set_donec (mkChan (cap (donec (net s))) (buf (donec (net s))) true)
                       (net s)))
                 (callers s))) as Hstep.
      { apply step_run_loop. unfold close. now rewrite Hdc. }
      eexists. split; [eapply rtc_once, Hstep|].
      split; [eapply step_guarded; eassumption | reflexivity]. }
  destruct (guarded_completes (work (callers s1)) s1) as (s' & Hs' & Hzero); auto.
  exists s'. split; [etrans; eassumption|].
  apply work_zero_returned; [assumption|].
  pose proof (steps_guarded _ _ Hs' Hg1) as Hg'. unfold guarded in Hg'. tauto.
Qed.

End StartStopFacts.

Section StopOnce.

Import Server ServerSpec.





End StopOnce.

(* ===================================================================== *)
(** * Further properties of the client and of the host command            *)
(* ===================================================================== *)

Section ClientMoreFacts.

Import GoStrings Client ClientSpec.

(** X16. For an [Unavailable] status and a clean context, the message
    decides: it is a cancellation exactly when it is ["client disconnected"]
    or has the shape ["stream error: <anything>; CANCEL"], the prefix and
    the suffix never overlapping. *)
Theorem isClientCanceled_unavailable (msg : string) :
  isClientCanceled None (Some (StatusError Unavailable msg)) = true
  <-> msg = "client disconnected"
      \/ exists mid, msg = "stream error: " +:+ mid +:+ "; CANCEL".
Proof.
  rewrite isClientCanceled_status. unfold cancel_status.
  rewrite <- stream_error_pattern. split.
  - intros [H|[H|[[_ H]|[_ H]]]]; try discriminate; auto.
  - intros [H|H]; [right; right; left; auto | right; right; right; auto].
Qed.

Lemma last_default_irrelevant {A} (l : list A) (a d d' : A) :
  List.last (a :: l) d = List.last (a :: l) d'.
Proof.
  revert a. induction l as [|b l IH]; intros a; [reflexivity|].
  change (List.last (b :: l) d = List.last (b :: l) d'). apply IH.
Qed.

Lemma applyOpts_subnets (ss : list string) (op : Op) :
  whitelistedSubnets (applyOpts op (map WithWhitelistedSubnets ss))
  = List.last ss (whitelistedSubnets op).
Proof.
  revert op. induction ss as [|s ss IH]; intros op; [reflexivity|].
  unfold applyOpts in *. simpl fold_left. rewrite IH.
  destruct ss as [|s' ss]; [reflexivity|].
  change (List.last (s :: s' :: ss) (whitelistedSubnets op))
    with (List.last (s' :: ss) (whitelistedSubnets op)).
  apply last_default_irrelevant.
Qed.

(** X17. The requests of [Start] and [RestartNode] carry the executable
    path (and the node name) as given, always a whitelisted-subnets field,
    which is the value of the last [WithWhitelistedSubnets] option and the
    empty string without one, and never a log level. *)
Theorem requests_of_options (name execPath : string) (ss : list string) :
  startRequest execPath (map WithWhitelistedSubnets ss)
  = mkStartRequest execPath (Some (List.last ss "")) None
  /\ restartNodeRequest name execPath (map WithWhitelistedSubnets ss)
     = mkRestartNodeRequest name
         (Some (mkStartRequest execPath (Some (List.last ss "")) None)).
Proof.
  unfold startRequest, restartNodeRequest. rewrite applyOpts_subnets. split; reflexivity.
Qed.

(** X18. While messages arrive and the consumer takes them, the routine
    stays in its loop: every snapshot has been handed over in order, the
    channel is not closed, [CloseSend] was not called and nothing was logged
    as a warning. If the consumer leaves the buffer full, the routine is
    parked on the send, the snapshot not delivered and the channel open. *)
Theorem StreamStatus_keeps_receiving (turns : list Turn) :
  Forall delivers turns ->
  (exists r, receiveRoutine turns = Receiving r
             /\ ch r = sends turns /\ closeSends r = 0%nat /\ warnings r = [])
  /\ (forall t rest,
        ctxDone t = false -> cliClosed t = false -> recvErr t = None ->
        chanRoom t = false ->
        exists r, receiveRoutine (turns ++ t :: rest) = Parked r
                  /\ ch r = sends turns /\ closeSends r = 0%nat).
Proof.
  intros Hall. unfold receiveRoutine. split.
  - pose proof (receiveLoop_delivers turns [] start_routine Hall) as Hrun.
    rewrite app_nil_r in Hrun. rewrite Hrun.
    simpl. eexists. split; [reflexivity|]. repeat split.
  - intros t rest Hd Hc He Hr. rewrite receiveLoop_delivers by assumption.
    simpl. rewrite Hd, Hc, He, Hr. simpl. eexists. split; [reflexivity|]. repeat split.
Qed.

(** X19. The routine ends, and closes the channel, only on a terminal
    turn: a run that ended consists of turns that delivered a snapshot each,
    followed by a turn at which the context was done, the client closed, or
    the receive failed; the cause is the one this turn calls for. *)
Theorem StreamStatus_ends_on_terminal (turns : list Turn) (c : Cause) (r : Routine) :
  receiveRoutine turns = Ended c r ->
  exists pre t rest,
    turns = pre ++ t :: rest /\ Forall delivers pre /\ terminal t = Some c
    /\ ch r = sends pre ++ [Close].
Proof.
  intros Hend. unfold receiveRoutine in Hend.
  destruct (receiveLoop_ended _ _ _ _ Hend) as (pre & t & rest & -> & Hpre & Ht).
  exists pre, t, rest. split; [reflexivity|]. split; [assumption|]. split; [assumption|].
  rewrite receiveLoop_delivers in Hend by assumption. simpl in Hend.
  unfold terminal in Ht.
  destruct (ctxDone t || cliClosed t).
  { injection Hend as _ <-. reflexivity. }
  destruct (recvErr t) as [err|]; [|discriminate].
  unfold errors_Is in Hend. destruct (bool_decide (err = io_EOF)).
  { injection Hend as _ <-. reflexivity. }
  destruct (isClientCanceled (streamCtxErr t) (Some err)); injection Hend as _ <-;
    reflexivity.
Qed.

End ClientMoreFacts.

Section CmdFacts.

Import Cmd.

Lemma serverFunc_served (h : Host) (tr : list HostEvent) (x : Exit) :
  Build h = None -> New h = None ->
  (tr, x) ∈ serverFunc h ->
  (tr, x) ∈ bySignal h \/ (tr, x) ∈ byRun h
  \/ (signal h = None /\ runAlone h = None /\ tr = started /\ x = Hang).
Proof.
  intros Hb Hn. unfold serverFunc. rewrite Hb, Hn.
  destruct (bySignal h ++ byRun h) as [|r runs] eqn:Hruns.
  - intros Hin. apply list_elem_of_singleton in Hin as [= -> ->].
    apply app_eq_nil in Hruns as [Hs Hr]. right; right.
    unfold bySignal in Hs. unfold byRun in Hr.
    destruct (signal h); [destruct (runCancelled h); discriminate|].
    destruct (runAlone h); [discriminate|]. auto.
  - rewrite <- Hruns. intros Hin. apply elem_of_app in Hin. tauto.
Qed.

(** X20. On a termination signal, the error with which the server's [Run]
    ends is logged and dropped: [serverFunc] returns [nil]. It returns an
    error only when [server.New] failed, or when [Run] ended by itself with
    that error before any signal was handled. *)
Theorem serverFunc_error_source (h : Host) (tr : list HostEvent) (err : error) :
  (tr, Return (Some err)) ∈ serverFunc h ->
  (New h = Some err /\ tr = [ReplaceGlobals])
  \/ (New h = None /\ runAlone h = Some (Some err)
      /\ Warn "signal received; closing server" None ∉ tr).
Proof.
  intros Hin. destruct (Build h) as [e|] eqn:Hb.
  { unfold serverFunc in Hin. rewrite Hb in Hin.
    apply list_elem_of_singleton in Hin. discriminate. }
  destruct (New h) as [e|] eqn:Hn.
  { unfold serverFunc in Hin. rewrite Hb, Hn in Hin.
    apply list_elem_of_singleton in Hin as [= -> ->]. left. auto. }
  right. split; [reflexivity|].
  destruct (serverFunc_served h _ _ Hb Hn Hin) as [Hs | [Hr | (_ & _ & _ & ?)]];
    [| |discriminate].
  - unfold bySignal in Hs. destruct (signal h); [|inversion Hs].
    destruct (runCancelled h); apply list_elem_of_singleton in Hs; discriminate.
  - unfold byRun in Hr. destruct (runAlone h) as [e|]; [|inversion Hr].
    apply list_elem_of_singleton in Hr as [= -> ->]. split; [reflexivity|].
    unfold started. intros Hmem.
    repeat (apply elem_of_cons in Hmem as [Hmem|Hmem]; [discriminate|]).
    inversion Hmem.
Qed.

(** X21. Once the server is started, every run of [serverFunc] that
    returns has cancelled the root context exactly once and has received
    from [errc] exactly once, so the goroutine that runs the server is not
    left parked on its send; no run cancels twice. *)
Theorem serverFunc_cancels_and_drains (h : Host) (tr : list HostEvent) (x : Exit) :
  Build h = None ->
  New h = None ->
  (tr, x) ∈ serverFunc h ->
  (length (List.filter isRootCancel tr) <= 1)%nat
  /\ (forall err, x = Return err ->
        length (List.filter isRootCancel tr) = 1%nat
        /\ length (List.filter isRecvErrc tr) = 1%nat).
Proof.
  intros Hb Hn Hin.
  destruct (serverFunc_served h _ _ Hb Hn Hin) as [Hs | [Hr | (_ & _ & -> & ->)]].
  - unfold bySignal in Hs. destruct (signal h); [|inversion Hs].
    destruct (runCancelled h); apply list_elem_of_singleton in Hs as [= -> ->];
      simpl; split; try lia; intros err [=]; auto.
  - unfold byRun in Hr. destruct (runAlone h); [|inversion Hr].
    apply list_elem_of_singleton in Hr as [= -> ->].
    simpl. split; [lia|]. intros err _. auto.
  - simpl. split; [lia|]. intros err [=].
Qed.

End CmdFacts.

Section StartAfterStop.

Import Server ServerSpec.

Variable d : Deps.

(** X22. [start] does not look at [stopc] before it launches. On an
    orchestrator whose [stopc] is closed already, [start] still creates the
    network and stores its handle; the health wait then takes the stop case
    (the [select] being evaluated before the deadline and before the
    collaborator reports), and [start] returns after having sent
    [errAborted] and closed [donec], the registry and [readyc] untouched. *)
Theorem start_after_stop (sg : Signals) (lc : localNetwork) (n : Network) :
  NewNetwork d (cfg lc) = inl n ->
  closed (stopc lc) = true ->
  polled_early sg n ->
  errc_ready lc ->
  closed (donec lc) = false ->
  exists lc',
    start d sg lc = [(lc', Ret tt)]
    /\ nw lc' = Some n
    /\ buf (errc lc') = [errAborted]
    /\ closed (donec lc') = true
    /\ history lc' = history lc ++ [SendErrc errAborted; CloseDonec]
    /\ (nodes lc', nodeInfos lc', apiClis lc', readyc lc')
       = (nodes lc, nodeInfos lc, apiClis lc, readyc lc).
Proof.
  intros Hlaunch Hsc (Hpoll & Hpollh) (Hec & Heb & Hcap) Hdc.
  assert (Hwait : waitForHealthy d sg (set_nw (Some n) lc)
                  = [(set_nw (Some n) lc, Ret (Some errAborted))]).
  { unfold waitForHealthy. cbn [nw set_nw].
    unfold select_ready, fire, earliest, health_ready, stop_ready.
    cbn [stopc set_nw]. rewrite Hsc. simpl.
    destruct (Healthy n) as [[th e]|] eqn:Hh; simpl.
    - specialize (Hpollh th e eq_refl).
      repeat match goal with
             | |- context [(?a <=? ?b)%N] => destruct (N.leb_spec a b)
             end; simpl; try reflexivity; lia.
    - repeat match goal with
             | |- context [(?a <=? ?b)%N] => destruct (N.leb_spec a b)
             end; simpl; try reflexivity; lia. }
  unfold start. rewrite Hlaunch, Hwait. simpl.
  unfold report, send. cbn [errc set_nw]. rewrite Hec, Heb, Hcap. simpl.
  unfold close. rewrite Hdc. simpl. eexists. split; [reflexivity|]. simpl.
  rewrite <- app_assoc. repeat split.
Qed.

End StartAfterStop.

(* ===================================================================== *)
(** * The further properties on the concrete cluster                      *)
(* ===================================================================== *)

Section MoreScenarioFacts.

Import GoStrings Client ClientSpec Server ServerSpec Scenario.

Lemma newNetwork_node_limit_witness :
  DefaultConfig deps = None
  /\ Make deps = None
  /\ ((length (NodeConfigs (NewDefaultConfig deps "/usr/local/bin/node")) <= 5)%nat ->
        exists lc, newNetwork deps "/usr/local/bin/node" "/tmp/network-runner" "" ""
                   = Ret (inl lc))
  /\ ((5 < length (NodeConfigs (NewDefaultConfig deps "/usr/local/bin/node")))%nat ->
        newNetwork deps "/usr/local/bin/node" "/tmp/network-runner" "" ""
        = Panic "index out of range").
Proof.
  split; [reflexivity|]. split; [reflexivity|].
  exact (newNetwork_node_limit deps "/usr/local/bin/node" "/tmp/network-runner" "" ""
           eq_refl eq_refl).
Defined.

(** Six nodes, five colours. *)
Example newNetwork_six_nodes :
  newNetwork sixDeps "/usr/local/bin/node" "/tmp/network-runner" "" ""
  = Panic "index out of range".
Proof. vm_compute. reflexivity. Qed.

Lemma newNetwork_nodes_witness :
  newNetwork deps "/usr/local/bin/node" "/tmp/network-runner" "" "" = Ret (inl created)
  /\ (2 < length (NodeConfigs (NewDefaultConfig deps "/usr/local/bin/node")))%nat
  /\ binPath created = "/usr/local/bin/node"
  /\ length (NodeConfigs (cfg created))
     = length (NodeConfigs (NewDefaultConfig deps "/usr/local/bin/node"))
  /\ nodeNames created !! 2%nat = Some (nodeName 2)
  /\ (exists col, colors !! 2%nat = Some col
        /\ NodeConfigs (cfg created) !! 2%nat
           = Some (configOf deps "/usr/local/bin/node" "/tmp/network-runner" "" "" col 2))
  /\ nodeInfos created !! nodeName 2
     = Some (infoOf deps "/usr/local/bin/node" "/tmp/network-runner" "" "" 2).
Proof.
  assert (2 < length (NodeConfigs (NewDefaultConfig deps "/usr/local/bin/node")))%nat
    as Hlt by (simpl; lia).
  split; [exact newNetwork_created|]. split; [exact Hlt|].
  exact (newNetwork_nodes deps "/usr/local/bin/node" "/tmp/network-runner" "" ""
           created 2 newNetwork_created Hlt).
Defined.

Lemma aborted_run :
  (launched, Ret (Some errAborted)) ∈ waitForHealthy deps stopping launched.
Proof.
  unfold waitForHealthy. cbn [nw launched set_nw]. apply list_elem_of_fmap.
  exists StopCase. split; [reflexivity|].
  assert (select_ready stopping launched healthyNetwork = [StopCase]) as ->
    by (vm_compute; reflexivity).
  apply elem_of_cons. now left.
Qed.

Lemma waitForHealthy_error_untouched_witness :
  (launched, Ret (Some errAborted)) ∈ waitForHealthy deps stopping launched
  /\ launched = launched.
Proof.
  split; [exact aborted_run|].
  exact (waitForHealthy_error_untouched deps stopping launched launched errAborted
           aborted_run).
Defined.

Lemma launched_readyc_open : closed (readyc launched) = false.
Proof. vm_compute. reflexivity. Qed.

Lemma launched_once_fresh : done (readycCloseOnce launched) = false.
Proof. vm_compute. reflexivity. Qed.

Lemma waitForHealthy_unknown_node_witness :
  nw launched = Some healthyNetwork
  /\ snd (GetAllNodes healthyNetwork) = None
  /\ closed (readyc launched) = false
  /\ (healthy, Ret None) ∈ waitForHealthy deps quiet launched
  /\ ((exists err, @Ret (option error) None = Ret (Some err))
      \/ (@Ret (option error) None = Ret None
          /\ Forall (known launched) (fst (GetAllNodes healthyNetwork)).*1)
      \/ (@Ret (option error) None = Panic nilDereference
          /\ Exists (fun name => nodeInfos launched !! name = None)
               (fst (GetAllNodes healthyNetwork)).*1)).
Proof.
  split; [reflexivity|]. split; [reflexivity|]. split; [exact launched_readyc_open|].
  split; [exact healthy_run|].
  exact (waitForHealthy_unknown_node deps quiet launched healthy healthyNetwork (Ret None)
           eq_refl eq_refl launched_readyc_open healthy_run).
Defined.

(** A node the orchestrator never configured makes the wait panic. *)
Example stray_node_panics :
  map snd (waitForHealthy deps quiet stray) = [Panic nilDereference].
Proof. vm_compute. reflexivity. Qed.

Lemma handles_NoDup : NoDup (fst (GetAllNodes healthyNetwork)).*1.
Proof.
  assert ((fst (GetAllNodes healthyNetwork)).*1 = map nodeName (seq 0 5)) as ->
    by (vm_compute; reflexivity).
  apply nodeNames_NoDup.
Qed.

Lemma waitForHealthy_success_writes_witness :
  nw launched = Some healthyNetwork
  /\ NoDup (fst (GetAllNodes healthyNetwork)).*1
  /\ closed (readyc launched) = false
  /\ done (readycCloseOnce launched) = false
  /\ (healthy, Ret None) ∈ waitForHealthy deps quiet launched
  /\ nodes healthy = fst (GetAllNodes healthyNetwork)
  /\ closed (readyc healthy) = true
  /\ (forall name node, (name, node) ∈ fst (GetAllNodes healthyNetwork) ->
        exists i, nodeInfos launched !! name = Some i
          /\ nodeInfos healthy !! name = Some (fillRecord deps node i)
          /\ apiClis healthy !! name = Some (GetAPIClient node))
  /\ (forall name, name ∉ (fst (GetAllNodes healthyNetwork)).*1 ->
        nodeInfos healthy !! name = nodeInfos launched !! name
        /\ apiClis healthy !! name = apiClis launched !! name)
  /\ (binPath healthy, cfg healthy, nw healthy, nodeNames healthy, stopc healthy,
      donec healthy, errc healthy, stopOnce healthy)
     = (binPath launched, cfg launched, nw launched, nodeNames launched, stopc launched,
        donec launched, errc launched, stopOnce launched).
Proof.
  split; [reflexivity|]. split; [exact handles_NoDup|].
  split; [exact launched_readyc_open|]. split; [exact launched_once_fresh|].
  split; [exact healthy_run|].
  exact (waitForHealthy_success_writes deps quiet launched healthy healthyNetwork
           eq_refl handles_NoDup launched_readyc_open launched_once_fresh healthy_run).
Defined.

Lemma handles_reversed : handles ≡ₚ reverse handles.
Proof. symmetry. apply reverse_Permutation. Qed.

Lemma fillAll_order_independent_witness :
  handles ≡ₚ reverse handles
  /\ NoDup handles.*1
  /\ snd (fillAll deps handles launched) = snd (fillAll deps (reverse handles) launched)
  /\ (snd (fillAll deps handles launched) = Ret tt ->
      fst (fillAll deps handles launched) = fst (fillAll deps (reverse handles) launched)).
Proof.
  split; [exact handles_reversed|]. split; [exact handles_NoDup|].
  exact (fillAll_order_independent deps handles (reverse handles) launched
           handles_reversed handles_NoDup).
Defined.

Lemma waitForHealthy_bounded_witness :
  nw launched = Some healthyNetwork
  /\ (fire quiet launched healthyNetwork <= N.max (pollAt quiet) healthyWait)%N
  /\ waitForHealthy deps quiet launched <> []
  /\ Forall (fun r => snd r <> Blocked) (waitForHealthy deps quiet launched).
Proof.
  split; [reflexivity|].
  exact (waitForHealthy_bounded deps quiet launched healthyNetwork eq_refl).
Defined.

Lemma failing_health_first : health_first quiet failing failingNetwork (5 * Second).
Proof.
  split; [reflexivity|]. split; [reflexivity|].
  intros ts Hts. vm_compute in Hts. discriminate.
Qed.

Lemma waitForHealthy_health_error_witness :
  nw failing = Some failingNetwork
  /\ Healthy failingNetwork = Some (5 * Second, Some (OtherError "node3 is not healthy"))%N
  /\ health_first quiet failing failingNetwork (5 * Second)
  /\ waitForHealthy deps quiet failing
     = [(failing, Ret (Some (OtherError "node3 is not healthy")))].
Proof.
  split; [reflexivity|]. split; [reflexivity|]. split; [exact failing_health_first|].
  exact (waitForHealthy_health_error deps quiet failing failingNetwork (5 * Second)
           (OtherError "node3 is not healthy") eq_refl eq_refl failing_health_first).
Defined.

Lemma late_deadline_first : deadline_first quiet late lateNetwork.
Proof.
  split.
  - intros ts Hts. vm_compute in Hts. discriminate.
  - intros th e [= <- _]. split; reflexivity.
Qed.

Lemma waitForHealthy_deadline_first_witness :
  nw late = Some lateNetwork
  /\ deadline_first quiet late lateNetwork
  /\ waitForHealthy deps quiet late = [(late, Ret (Some context_DeadlineExceeded))].
Proof.
  split; [reflexivity|]. split; [exact late_deadline_first|].
  exact (waitForHealthy_deadline_first deps quiet late lateNetwork eq_refl
           late_deadline_first).
Defined.

Lemma created_errc_ready : errc_ready created.
Proof. repeat split; vm_compute; reflexivity. Qed.

Lemma created_donec_open : closed (donec created) = false.
Proof. vm_compute. reflexivity. Qed.

Lemma start_launch_failure_witness :
  NewNetwork failingDeps (cfg created) = inr (OtherError "launch failed")
  /\ errc_ready created
  /\ closed (donec created) = false
  /\ exists lc',
       start failingDeps quiet created = [(lc', Ret tt)]
       /\ buf (errc lc') = [OtherError "launch failed"]
       /\ closed (donec lc') = true
       /\ history lc' = history created ++ [SendErrc (OtherError "launch failed"); CloseDonec]
       /\ (nw lc', nodes lc', nodeInfos lc', apiClis lc', readyc lc', stopc lc')
          = (nw created, nodes created, nodeInfos created, apiClis created,
             readyc created, stopc created).
Proof.
  split; [reflexivity|]. split; [exact created_errc_ready|].
  split; [exact created_donec_open|].
  exact (start_launch_failure failingDeps quiet created (OtherError "launch failed")
           eq_refl created_errc_ready created_donec_open).
Defined.

Lemma start_reports_wait_witness :
  NewNetwork deps (cfg created) = inl healthyNetwork
  /\ errc_ready created
  /\ closed (donec created) = false
  /\ Forall2 start_of_wait
       (waitForHealthy deps quiet (set_nw (Some healthyNetwork) created))
       (start deps quiet created).
Proof.
  split; [reflexivity|]. split; [exact created_errc_ready|].
  split; [exact created_donec_open|].
  exact (start_reports_wait deps quiet created healthyNetwork
           eq_refl created_errc_ready created_donec_open).
Defined.

Lemma start_not_reentrant_witness :
  closed (donec finished) = true
  /\ Forall (fun r => snd r = Blocked \/ exists w, snd r = Panic w)
       (start deps quiet finished).
Proof.
  split; [reflexivity|].
  exact (start_not_reentrant deps quiet finished eq_refl).
Defined.

Lemma finished_stopOnce : stopOnce finished = newOnce.
Proof. vm_compute. reflexivity. Qed.

Lemma finished_stopc : closed (stopc finished) = false.
Proof. vm_compute. reflexivity. Qed.

Lemma stop_twice_witness :
  nw finished = Some healthyNetwork
  /\ stopOnce finished = newOnce
  /\ closed (stopc finished) = false
  /\ closed (donec finished) = true
  /\ exists lc1,
       stop finished = (lc1, Ret tt)
       /\ history lc1 = history finished ++ [CloseStopc; NwStop]
       /\ closed (stopc lc1) = true
       /\ stop lc1 = (lc1, Ret tt).
Proof.
  split; [reflexivity|]. split; [exact finished_stopOnce|].
  split; [exact finished_stopc|]. split; [reflexivity|].
  exact (stop_twice finished healthyNetwork eq_refl finished_stopOnce finished_stopc
           eq_refl).
Defined.

Lemma created_no_handle : nw created = None.
Proof. vm_compute. reflexivity. Qed.

Lemma created_stopOnce : stopOnce created = newOnce.
Proof. vm_compute. reflexivity. Qed.

Lemma created_stopc : closed (stopc created) = false.
Proof. vm_compute. reflexivity. Qed.

Lemma stop_not_retried_witness :
  nw created = None
  /\ stopOnce created = newOnce
  /\ closed (stopc created) = false
  /\ exists lc1,
       stop created = (lc1, Panic "invalid memory address or nil pointer dereference")
       /\ closed (stopc lc1) = true
       /\ occurrences NwStop lc1 = occurrences NwStop created
       /\ forall n, stop (set_nw (Some n) lc1) = (set_nw (Some n) lc1, Ret tt).
Proof.
  split; [exact created_no_handle|]. split; [exact created_stopOnce|].
  split; [exact created_stopc|].
  exact (stop_not_retried created created_no_handle created_stopOnce created_stopc).
Defined.

Lemma stop_no_deadlock_witness :
  initial twoCallers
  /\ steps twoCallers twoCallers
  /\ exists s', steps twoCallers s' /\ Forall (fun pc => pc = Returned) (callers s').
Proof.
  split; [exact twoCallers_initial|]. split; [apply rtc_refl|].
  exact (stop_no_deadlock twoCallers twoCallers twoCallers_initial (rtc_refl _ _)).
Defined.

Lemma twoTurns_deliver : Forall delivers twoTurns.
Proof. repeat constructor. Qed.

Lemma StreamStatus_keeps_receiving_witness :
  Forall delivers twoTurns
  /\ (exists r, receiveRoutine twoTurns = Receiving r
                /\ ch r = sends twoTurns /\ closeSends r = 0%nat /\ warnings r = [])
  /\ (forall t rest,
        ctxDone t = false -> cliClosed t = false -> recvErr t = None ->
        chanRoom t = false ->
        exists r, receiveRoutine (twoTurns ++ t :: rest) = Parked r
                  /\ ch r = sends twoTurns /\ closeSends r = 0%nat).
Proof.
  split; [exact twoTurns_deliver|].
  exact (StreamStatus_keeps_receiving twoTurns twoTurns_deliver).
Defined.

Lemma ended_run :
  receiveRoutine (twoTurns ++ [mkTurn false false None (Some io_EOF) None true])
  = Ended CleanEOF endedRoutine.
Proof. reflexivity. Qed.

Lemma StreamStatus_ends_on_terminal_witness :
  receiveRoutine (twoTurns ++ [mkTurn false false None (Some io_EOF) None true])
  = Ended CleanEOF endedRoutine
  /\ exists pre t rest,
       twoTurns ++ [mkTurn false false None (Some io_EOF) None true] = pre ++ t :: rest
       /\ Forall delivers pre /\ terminal t = Some CleanEOF
       /\ ch endedRoutine = sends pre ++ [Close].
Proof.
  split; [exact ended_run|].
  exact (StreamStatus_ends_on_terminal _ CleanEOF endedRoutine ended_run).
Defined.

(** The server's error after a signal is dropped. *)
Lemma interrupted_run : Cmd.serverFunc interrupted = [(signalTrace, Cmd.Return None)].
Proof. reflexivity. Qed.

Lemma interrupted_member : (signalTrace, Cmd.Return None) ∈ Cmd.serverFunc interrupted.
Proof. rewrite interrupted_run. apply elem_of_cons. now left. Qed.

Lemma serverFunc_cancels_and_drains_witness :
  Cmd.Build interrupted = None
  /\ Cmd.New interrupted = None
  /\ (signalTrace, Cmd.Return None) ∈ Cmd.serverFunc interrupted
  /\ (length (List.filter Cmd.isRootCancel signalTrace) <= 1)%nat
  /\ (forall err, Cmd.Return None = Cmd.Return err ->
        length (List.filter Cmd.isRootCancel signalTrace) = 1%nat
        /\ length (List.filter Cmd.isRecvErrc signalTrace) = 1%nat).
Proof.
  split; [reflexivity|]. split; [reflexivity|]. split; [exact interrupted_member|].
  exact (serverFunc_cancels_and_drains interrupted signalTrace (Cmd.Return None)
           eq_refl eq_refl interrupted_member).
Defined.

Lemma unbound_member :
  ([Cmd.ReplaceGlobals],
   Cmd.Return (Some (OtherError "listen tcp :8080: bind: address already in use")))
  ∈ Cmd.serverFunc unbound.
Proof. apply elem_of_cons. now left. Qed.

Lemma serverFunc_error_source_witness :
  ([Cmd.ReplaceGlobals],
   Cmd.Return (Some (OtherError "listen tcp :8080: bind: address already in use")))
  ∈ Cmd.serverFunc unbound
  /\ ((Cmd.New unbound = Some (OtherError "listen tcp :8080: bind: address already in use")
       /\ [Cmd.ReplaceGlobals] = [Cmd.ReplaceGlobals])
      \/ (Cmd.New unbound = None
          /\ Cmd.runAlone unbound
             = Some (Some (OtherError "listen tcp :8080: bind: address already in use"))
          /\ Cmd.Warn "signal received; closing server" None ∉ [Cmd.ReplaceGlobals])).
Proof.
  split; [exact unbound_member|].
  exact (serverFunc_error_source unbound [Cmd.ReplaceGlobals]
           (OtherError "listen tcp :8080: bind: address already in use") unbound_member).
Defined.

Lemma stopped_early_polled : polled_early quiet healthyNetwork.
Proof. split; [reflexivity|]. intros th e [= <- _]. reflexivity. Qed.

Lemma start_after_stop_witness :
  NewNetwork deps (cfg stoppedEarly) = inl healthyNetwork
  /\ closed (stopc stoppedEarly) = true
  /\ polled_early quiet healthyNetwork
  /\ errc_ready stoppedEarly
  /\ closed (donec stoppedEarly) = false
  /\ exists lc',
       start deps quiet stoppedEarly = [(lc', Ret tt)]
       /\ nw lc' = Some healthyNetwork
       /\ buf (errc lc') = [errAborted]
       /\ closed (donec lc') = true
       /\ history lc' = history stoppedEarly ++ [SendErrc errAborted; CloseDonec]
       /\ (nodes lc', nodeInfos lc', apiClis lc', readyc lc')
          = (nodes stoppedEarly, nodeInfos stoppedEarly, apiClis stoppedEarly,
             readyc stoppedEarly).
Proof.
  assert (errc_ready stoppedEarly) as Hec by (repeat split; vm_compute; reflexivity).
  assert (closed (donec stoppedEarly) = false) as Hdc by (vm_compute; reflexivity).
  split; [reflexivity|]. split; [reflexivity|]. split; [exact stopped_early_polled|].
  split; [exact Hec|]. split; [exact Hdc|].
  exact (start_after_stop deps quiet stoppedEarly healthyNetwork
           eq_refl eq_refl stopped_early_polled Hec Hdc).
Defined.

Lemma healthy_again : (healthy, Ret None) ∈ waitForHealthy deps quiet healthy.
Proof.
  assert (snd (afterSelect deps healthyNetwork (HealthCase None) healthy) = Ret None)
    as Hsnd by (vm_compute; reflexivity).
  assert (fst (afterSelect deps healthyNetwork (HealthCase None) healthy) = healthy)
    as Hfst by (vm_compute; reflexivity).
  assert (nw healthy = Some healthyNetwork) as Hnw by (vm_compute; reflexivity).
  unfold waitForHealthy. rewrite Hnw. apply list_elem_of_fmap.
  exists (HealthCase None). split.
  - destruct (afterSelect deps healthyNetwork (HealthCase None) healthy) as [a b].
    simpl in *. now rewrite Hsnd, Hfst.
  - assert (select_ready quiet healthy healthyNetwork = [HealthCase None]) as ->
      by (vm_compute; reflexivity).
    apply elem_of_cons. now left.
Qed.

Lemma waitForHealthy_idempotent_witness :
  nw launched = Some healthyNetwork
  /\ NoDup (fst (GetAllNodes healthyNetwork)).*1
  /\ closed (readyc launched) = false
  /\ done (readycCloseOnce launched) = false
  /\ (healthy, Ret None) ∈ waitForHealthy deps quiet launched
  /\ (healthy, Ret None) ∈ waitForHealthy deps quiet healthy
  /\ healthy = healthy.
Proof.
  split; [reflexivity|]. split; [exact handles_NoDup|].
  split; [exact launched_readyc_open|]. split; [exact launched_once_fresh|].
  split; [exact healthy_run|]. split; [exact healthy_again|].
  exact (waitForHealthy_idempotent deps quiet quiet launched healthy healthy healthyNetwork
           eq_refl handles_NoDup launched_readyc_open launched_once_fresh
           healthy_run healthy_again).
Defined.



(** In the run of the scenario [Stop] was called once. *)
Example twoCallers_stopped_once : occurrences NwStop (net afterStop) = 1%nat.
Proof. vm_compute. reflexivity. Qed.

End MoreScenarioFacts.
